(** * PriceCatcher query interface: a model of [main.py]

    The program is a thin orchestration layer over four external
    collaborators: the JSON library, the cloud-storage client, the
    analytical database engine and the UI framework's notifier.  The
    embedding keeps the control flow of [main.py] (guards, [try]/[except]
    blocks, the chunk loop, the schema loop) and takes the answers of the
    collaborators from a [World] record of oracles.  Every call to a
    collaborator is recorded in a trace, so that sentences such as
    "no network call is attempted" become statements about the trace. *)

From Stdlib Require Import ZArith Ascii String List Floats.SpecFloat.
From Stdlib Require Import Numbers.DecimalString.
From stdpp Require Import base option list strings gmap fin_maps.

Local Open Scope Z_scope.
Set Warnings "-register-all".

(** ** Python values that the program handles *)

(** A float is kept as an IEEE value; the program never computes with it,
    it only tests it for zero and hands it to formatting routines. *)
Definition pyfloat : Type := spec_float.

(** What [json.loads] returns.  [JNull] is Python's [None]. *)
Inductive json : Type :=
| JNull
| JBool (b : bool)
| JInt (n : Z)
| JFloat (x : pyfloat)
| JStr (s : string)
| JArr (items : list json)
| JObj (members : list (string * json)).

(** Truth value of a Python object, as tested by [if obj:]. *)
Definition float_truthy (x : pyfloat) : bool :=
  match x with
  | S754_zero _ => false
  | _ => true
  end.

Definition truthy (v : json) : bool :=
  match v with
  | JNull => false
  | JBool b => b
  | JInt n => negb (n =? 0)
  | JFloat x => float_truthy x
  | JStr s => negb (String.eqb s EmptyString)
  | JArr items => match items with [] => false | _ => true end
  | JObj members => match members with [] => false | _ => true end
  end.

(** A cell of a result table. *)
Inductive cell : Type :=
| CNone
| CBool (b : bool)
| CInt (n : Z)
| CFloat (x : pyfloat)
| CStr (s : string).

#[global] Instance spec_float_eq_dec : EqDecision spec_float.
Proof. solve_decision. Defined.

#[global] Instance cell_eq_dec : EqDecision cell.
Proof. solve_decision. Defined.

(** The tabular result of a query: [fetchdf()] of the engine. *)
Record DataFrame : Type := mkDataFrame {
  columns : list string;
  rows : list (list cell)
}.

#[global] Instance DataFrame_eq_dec : EqDecision DataFrame.
Proof. solve_decision. Defined.

(** ** Characters and text helpers *)

Definition nl : string := String "010"%char EmptyString.
Definition comma : string := String ","%char EmptyString.
Definition dquote_char : ascii := "034"%char.
Definition dquote : string := String dquote_char EmptyString.
Definition squote : string := String "039"%char EmptyString.
Definition slash : string := String "/"%char EmptyString.

(** [str(n)] for a Python integer. *)
Definition str_int (n : Z) : string := NilZero.string_of_int (Z.to_int n).

(** [sep.join(parts)] *)
Fixpoint join (sep : string) (parts : list string) : string :=
  match parts with
  | [] => EmptyString
  | [p] => p
  | p :: rest => p +:+ sep +:+ join sep rest
  end.

Fixpoint ends_with_slash (p : string) : bool :=
  match p with
  | EmptyString => false
  | String c EmptyString => Ascii.eqb c "/"%char
  | String _ rest => ends_with_slash rest
  end.

(** [os.path.join(a, b)] on a POSIX host. *)
Definition path_join (a b : string) : string :=
  if String.prefix slash b then b
  else if String.eqb a EmptyString || ends_with_slash a then a +:+ b
  else a +:+ slash +:+ b.

(** ** The file system *)

Inductive node : Type :=
| Dir
| File (content : string).

(** [d] itself, or a path below the directory [d]. *)
Definition dir_prefix (d : string) : string :=
  if ends_with_slash d then d else d +:+ slash.

Definition under (d p : string) : bool :=
  String.eqb p d || String.prefix (dir_prefix d) p.

(** [os.path.exists(p)] *)
Definition path_exists (fs : gmap string node) (p : string) : bool :=
  bool_decide (is_Some (fs !! p)).

(** [shutil.rmtree(d)]: the directory goes, with everything below it. *)
Definition rmtree (d : string) (fs : gmap string node) : gmap string node :=
  filter (λ kv, under d kv.1 = false) fs.

(** Appending to a file opened for writing. *)
Definition file_append (p data : string) (fs : gmap string node)
  : gmap string node :=
  match fs !! p with
  | Some (File old) => <[p := File (old +:+ data)]> fs
  | _ => <[p := File data]> fs
  end.

(** ** Exceptions and outcomes *)

(** An instance of Python's [Exception]: its class name and its [str].
    These are the failures that library calls report; [except Exception]
    handles every one of them. *)
Record exn : Type := mkExn {
  exn_class : string;
  exn_str : string
}.

Inductive outcome (A : Type) : Type :=
| Ok (a : A)
| Raise (e : exn).
Arguments Ok {A} a.
Arguments Raise {A} e.

Definition is_ok {A} (o : outcome A) : bool :=
  match o with Ok _ => true | Raise _ => false end.

(** ** Handles of the external libraries *)

Record Credentials : Type := mkCredentials {
  cred_path : string;
  cred_scopes : list string
}.

Record DriveService : Type := mkService {
  svc_name : string;
  svc_version : string;
  svc_credentials : Credentials
}.

(** One entry of the [files] list of a listing response; the listing asks
    for the fields [id] and [name] only. *)
Record DriveFile : Type := mkDriveFile {
  file_id : string;
  file_name : string
}.

(** The response dictionary of [files().list(...).execute()]: the key
    [files] may be absent. *)
Record ListResponse : Type := mkListResponse {
  resp_files : option (list DriveFile)
}.

Record MediaRequest : Type := mkRequest {
  req_service : DriveService;
  req_file_id : string
}.

(** A database session handle.  Closing marks the very same object. *)
Record connection : Type := mkConnection {
  conn_path : string;
  conn_read_only : bool;
  conn_closed : bool
}.

Definition close (c : connection) : connection :=
  {| conn_path := conn_path c; conn_read_only := conn_read_only c;
     conn_closed := true |}.

(** ** Calls into the collaborators, as recorded in the trace *)

Inductive event : Type :=
| EvNotify (kind msg : string)
| EvPrint (line : string)
| EvMkdtemp
| EvJsonLoads (text : string)
| EvOpenWrite (path : string)
| EvJsonDump (v : json)
| EvServiceAccount (path : string) (scopes : list string)
| EvBuild (name version : string)
| EvFilesList (q spaces fields : string)
| EvGetMedia (id : string)
| EvNextChunk (id : string) (chunksize : Z) (k : nat)
| EvDuckConnect (path : string) (read_only : bool)
| EvDbExecute (sql : string)
| EvDbClose
| EvNow
| EvRmtree (path : string).

(** Calls that go to the cloud-storage client (the remote fetcher). *)
Definition is_remote_call (ev : event) : bool :=
  match ev with
  | EvServiceAccount _ _ | EvBuild _ _ | EvFilesList _ _ _
  | EvGetMedia _ | EvNextChunk _ _ _ => true
  | _ => false
  end.

(** Calls that use the database (connecting included). *)
Definition is_database_call (ev : event) : bool :=
  match ev with
  | EvDuckConnect _ _ | EvDbExecute _ | EvDbClose => true
  | _ => false
  end.

(** ** The world: what the collaborators answer *)

Record World : Type := mkWorld {
  (** [tempfile.mkdtemp()]: the path of the directory it creates *)
  mkdtemp : gmap string node → outcome string;
  (** [json.loads(text)] *)
  json_loads : string → outcome json;
  (** the text that [json.dump(v, f)] writes *)
  json_dump : json → outcome string;
  (** opening a path for writing *)
  open_write : string → outcome unit;
  (** [Credentials.from_service_account_file], given what is at the path *)
  from_service_account_file : option node → list string → outcome unit;
  (** [build(name, version, credentials=...)] *)
  build : string → string → Credentials → outcome unit;
  (** [files().list(q=, spaces=, fields=).execute()] *)
  files_list : DriveService → string → string → string → outcome ListResponse;
  (** [files().get_media(fileId=...)] *)
  get_media : DriveService → string → outcome unit;
  (** the [k]-th call of [downloader.next_chunk()]: the bytes written to
      the file handle and the [done] flag *)
  next_chunk : MediaRequest → Z → nat → outcome (string * bool);
  (** [duckdb.connect(path, read_only=...)], given what is at the path *)
  duckdb_connect : string → option node → bool → outcome unit;
  (** [connection.execute(sql)], with [fetchdf()] where the caller asks *)
  db_execute : connection → string → outcome DataFrame;
  (** the [k]-th reading of [datetime.now()], in microseconds *)
  now : nat → Z;
  (** [timedelta.total_seconds()] of a difference in microseconds *)
  total_seconds : Z → pyfloat;
  (** [f"{x:.2f}"] *)
  format_2f : pyfloat → string;
  (** [str(x)] for a float *)
  float_str : pyfloat → string
}.

(** ** Program state *)

(** The attributes of the [DuckDBGDriveManager] object. *)
Record Manager : Type := mkManager {
  _temp_dir : string;
  _db_path : string;
  _connection : option connection;
  FOLDER_ID : string;
  DB_NAME : string;
  table_info : option (list (cell * DataFrame))
}.

(** The attributes of the UI [state] object.  [None] is [JNull] for the
    credentials and [None] of the option type elsewhere. *)
Record State : Type := mkState {
  credentials_content : json;
  connection_status : bool;
  query : string;
  results : option DataFrame;
  state_table_info : option (list (cell * DataFrame));
  execution_time : option pyfloat;
  error_message : option string
}.

(** Everything a handler can read or change: the two module-level objects
    [state] and [db_manager], the disk, the trace of external calls and
    the number of clock readings so far. *)
Record Sys : Type := mkSys {
  state : State;
  db_manager : Manager;
  fs : gmap string node;
  trace : list event;
  ticks : nat
}.

(** ** A monad for handlers

    A computation changes [Sys] and either returns or raises.  What it
    did to [Sys] before raising stays done.  The outer [option] is [None]
    only when the fuel of the chunk loop runs out. *)

Definition M (A : Type) : Type := Sys → option (outcome A * Sys).

#[global] Instance M_ret : MRet M := λ A a s, Some (Ok a, s).

#[global] Instance M_bind : MBind M := λ A B f m s,
  match m s with
  | Some (Ok a, s') => f a s'
  | Some (Raise e, s') => Some (Raise e, s')
  | None => None
  end.

Definition raise {A} (e : exn) : M A := λ s, Some (Raise e, s).

(** [try: body  except Exception as e: handler(e)] *)
Definition try_except {A} (body : M A) (handler : exn → M A) : M A := λ s,
  match body s with
  | Some (Raise e, s') => handler e s'
  | r => r
  end.

Definition gets {A} (f : Sys → A) : M A := λ s, Some (Ok (f s), s).
Definition modify (f : Sys → Sys) : M unit := λ s, Some (Ok tt, f s).

(** Changes to one component of [Sys]. *)
Definition logged (evs : list event) (s : Sys) : Sys :=
  {| state := state s; db_manager := db_manager s; fs := fs s;
     trace := trace s ++ evs; ticks := ticks s |}.

Definition on_state (f : State → State) (s : Sys) : Sys :=
  {| state := f (state s); db_manager := db_manager s; fs := fs s;
     trace := trace s; ticks := ticks s |}.

Definition on_manager (f : Manager → Manager) (s : Sys) : Sys :=
  {| state := state s; db_manager := f (db_manager s); fs := fs s;
     trace := trace s; ticks := ticks s |}.

Definition on_fs (f : gmap string node → gmap string node) (s : Sys) : Sys :=
  {| state := state s; db_manager := db_manager s; fs := f (fs s);
     trace := trace s; ticks := ticks s |}.

Definition next_tick (s : Sys) : Sys :=
  {| state := state s; db_manager := db_manager s; fs := fs s;
     trace := trace s; ticks := S (ticks s) |}.

Definition emit (ev : event) : M unit := modify (logged [ev]).

(** An external call: it is recorded, then it answers. *)
Definition call {A} (ev : event) (answer : outcome A) : M A :=
  _ ← emit ev;
  match answer with
  | Ok a => mret a
  | Raise e => raise e
  end.

Definition set_state (f : State → State) : M unit := modify (on_state f).
Definition set_manager (f : Manager → Manager) : M unit :=
  modify (on_manager f).
Definition set_fs (f : gmap string node → gmap string node) : M unit :=
  modify (on_fs f).

Definition tick : M nat :=
  k ← gets ticks;
  _ ← modify next_tick;
  mret k.

(** [notify(state, kind, msg)] and [print(line)] *)
Definition notify (kind msg : string) : M unit := emit (EvNotify kind msg).
Definition print (line : string) : M unit := emit (EvPrint line).

(** Attribute assignments. *)
Definition with_connection (c : option connection) (m : Manager) : Manager :=
  {| _temp_dir := _temp_dir m; _db_path := _db_path m; _connection := c;
     FOLDER_ID := FOLDER_ID m; DB_NAME := DB_NAME m;
     table_info := table_info m |}.

Definition with_table_info (t : option (list (cell * DataFrame)))
    (m : Manager) : Manager :=
  {| _temp_dir := _temp_dir m; _db_path := _db_path m;
     _connection := _connection m;
     FOLDER_ID := FOLDER_ID m; DB_NAME := DB_NAME m; table_info := t |}.

Definition with_credentials_content (v : json) (st : State) : State :=
  {| credentials_content := v; connection_status := connection_status st;
     query := query st; results := results st;
     state_table_info := state_table_info st;
     execution_time := execution_time st;
     error_message := error_message st |}.

Definition with_connection_status (b : bool) (st : State) : State :=
  {| credentials_content := credentials_content st; connection_status := b;
     query := query st; results := results st;
     state_table_info := state_table_info st;
     execution_time := execution_time st;
     error_message := error_message st |}.

Definition with_results (r : option DataFrame) (st : State) : State :=
  {| credentials_content := credentials_content st;
     connection_status := connection_status st;
     query := query st; results := r;
     state_table_info := state_table_info st;
     execution_time := execution_time st;
     error_message := error_message st |}.

Definition with_state_table_info (t : option (list (cell * DataFrame)))
    (st : State) : State :=
  {| credentials_content := credentials_content st;
     connection_status := connection_status st;
     query := query st; results := results st;
     state_table_info := t;
     execution_time := execution_time st;
     error_message := error_message st |}.

Definition with_execution_time (t : option pyfloat) (st : State) : State :=
  {| credentials_content := credentials_content st;
     connection_status := connection_status st;
     query := query st; results := results st;
     state_table_info := state_table_info st;
     execution_time := t;
     error_message := error_message st |}.

Definition with_error_message (e : option string) (st : State) : State :=
  {| credentials_content := credentials_content st;
     connection_status := connection_status st;
     query := query st; results := results st;
     state_table_info := state_table_info st;
     execution_time := execution_time st;
     error_message := e |}.

(** ** Data frames and dictionaries *)

Fixpoint index_of (name : string) (cols : list string) : option nat :=
  match cols with
  | [] => None
  | c :: rest =>
      if String.eqb c name then Some O
      else S <$> index_of name rest
  end.

(** [df[name]]: the cells of the column, top to bottom; [KeyError] when
    there is no such column. *)
Definition df_column (df : DataFrame) (name : string) : outcome (list cell) :=
  match index_of name (columns df) with
  | Some i => Ok (map (λ r, nth i r CNone) (rows df))
  | None => Raise (mkExn "KeyError" (squote +:+ name +:+ squote))
  end.

(** [d[k] = v] on a dictionary that remembers insertion order: an
    existing key keeps its place and gets the new value. *)
Fixpoint dict_set {V} (k : cell) (v : V) (d : list (cell * V))
  : list (cell * V) :=
  match d with
  | [] => [(k, v)]
  | (k', v') :: rest =>
      if decide (k' = k) then (k, v) :: rest
      else (k', v') :: dict_set k v rest
  end.

Fixpoint dict_get {V} (k : cell) (d : list (cell * V)) : option V :=
  match d with
  | [] => None
  | (k', v') :: rest => if decide (k' = k) then Some v' else dict_get k rest
  end.

Definition str_bool (b : bool) : string := if b then "True" else "False".

(** [str(x)] of a cell, as an f-string interpolates it. *)
Definition str_cell (w : World) (c : cell) : string :=
  match c with
  | CNone => "None"
  | CBool b => str_bool b
  | CInt n => str_int n
  | CFloat x => float_str w x
  | CStr s => s
  end.

(** ** The database manager *)

Module DuckDBGDriveManager.
Section Methods.
Context (w : World).

(** [__init__]: a fresh temporary directory, no connection yet. *)
Definition __init__ : M Manager :=
  disk ← gets fs;
  d ← call EvMkdtemp (mkdtemp w disk);
  _ ← set_fs (insert d Dir);
  mret {| _temp_dir := d;
          _db_path := path_join d "pricecatcher.duckdb";
          _connection := None;
          FOLDER_ID := "1L0E2fSEAYrpzHV3Jwt1nznjTUJAKQcV_";
          DB_NAME := "pricecatcher.duckdb";
          table_info := None |}.

(** [open(path, 'w')] and [io.FileIO(path, 'wb')]: the file is created
    empty, or emptied. *)
Definition open_for_write (path : string) : M unit :=
  _ ← call (EvOpenWrite path) (open_write w path);
  set_fs (insert path (File EmptyString)).

(** [self._connection.execute(sql)]; without a connection object the
    attribute access fails. *)
Definition connection_execute (sql : string) : M DataFrame :=
  self ← gets db_manager;
  match _connection self with
  | Some c => call (EvDbExecute sql) (db_execute w c sql)
  | None =>
      raise (mkExn "AttributeError"
               "'NoneType' object has no attribute 'execute'")
  end.

(** The loop body of [_get_table_info], over the remaining names. *)
Fixpoint describe_tables (names : list cell)
    (acc : list (cell * DataFrame)) : M (list (cell * DataFrame)) :=
  match names with
  | [] => mret acc
  | table_name :: rest =>
      cols ← connection_execute ("DESCRIBE " +:+ str_cell w table_name);
      describe_tables rest (dict_set table_name cols acc)
  end.

Definition _get_table_info : M (list (cell * DataFrame)) :=
  tables ← connection_execute "SHOW TABLES";
  match df_column tables "name" with
  | Raise e => raise e
  | Ok names => describe_tables names []
  end.

Definition chunksize : Z := 1024 * 1024.

(** [while not done: _, done = downloader.next_chunk()], where [k]
    counts the calls already made. *)
Fixpoint download_loop (fuel : nat) (req : MediaRequest) (path : string)
    (k : nat) : M unit :=
  match fuel with
  | O => λ _ : Sys, None
  | S fuel' =>
      '(data, done) ← call (EvNextChunk (req_file_id req) chunksize k)
                           (next_chunk w req chunksize k);
      _ ← set_fs (file_append path data);
      if done : bool then mret tt else download_loop fuel' req path (S k)
  end.

Definition drive_scope : string :=
  "https://www.googleapis.com/auth/drive.readonly".

Definition drive_query (self : Manager) : string :=
  "name = '" +:+ DB_NAME self +:+ "' and '" +:+ FOLDER_ID self
    +:+ "' in parents".

Definition not_found (self : Manager) : exn :=
  mkExn "FileNotFoundError"
    ("Could not find " +:+ DB_NAME self +:+ " in the specified folder").

(** [initialize_connection], first part of the [try] block: write the
    credentials to a file, authenticate, build the client and list the
    files with the fixed name in the fixed folder. *)
Definition locate_database (credentials_dict : json)
  : M (DriveService * list DriveFile) :=
  self ← gets db_manager;
  let creds_path := path_join (_temp_dir self) "creds.json" in
  _ ← open_for_write creds_path;
  text ← call (EvJsonDump credentials_dict) (json_dump w credentials_dict);
  _ ← set_fs (file_append creds_path text);
  disk ← gets fs;
  _ ← call (EvServiceAccount creds_path [drive_scope])
           (from_service_account_file w (disk !! creds_path) [drive_scope]);
  let credentials := mkCredentials creds_path [drive_scope] in
  _ ← call (EvBuild "drive" "v3") (build w "drive" "v3" credentials);
  let drive_service := mkService "drive" "v3" credentials in
  let q := drive_query self in
  results ← call (EvFilesList q "drive" "files(id, name)")
                 (files_list w drive_service q "drive" "files(id, name)");
  mret (drive_service, default [] (resp_files results)).

(** [initialize_connection], second part of the [try] block: download
    the file [first], open it read-only, apply the two settings and
    take the schema snapshot. *)
Definition fetch_and_open (fuel : nat) (drive_service : DriveService)
    (first : DriveFile) : M bool :=
  self ← gets db_manager;
  let id := file_id first in
  _ ← call (EvGetMedia id) (get_media w drive_service id);
  let request := mkRequest drive_service id in
  _ ← open_for_write (_db_path self);
  _ ← download_loop fuel request (_db_path self) O;
  disk ← gets fs;
  _ ← call (EvDuckConnect (_db_path self) true)
           (duckdb_connect w (_db_path self) (disk !! _db_path self) true);
  _ ← set_manager
        (with_connection (Some (mkConnection (_db_path self) true false)));
  _ ← connection_execute "SET memory_limit='4GB'";
  _ ← connection_execute "SET threads TO 4";
  info ← _get_table_info;
  _ ← set_manager (with_table_info (Some info));
  mret true.

(** The body of the [try] block of [initialize_connection]. *)
Definition connect_steps (fuel : nat) (credentials_dict : json) : M bool :=
  '(drive_service, files) ← locate_database credentials_dict;
  match files with
  | [] => self ← gets db_manager; raise (not_found self)
  | first :: _ => fetch_and_open fuel drive_service first
  end.

Definition initialize_connection (fuel : nat) (credentials_dict : json)
  : M bool :=
  try_except (connect_steps fuel credentials_dict)
    (λ e, _ ← print ("Connection error: " +:+ exn_str e); mret false).

Definition execute_query (query : string) : M DataFrame :=
  try_except
    (self ← gets db_manager;
     match _connection self with
     | None => raise (mkExn "Exception" "Database not connected")
     | Some _ => connection_execute query
     end)
    (λ e, raise (mkExn "Exception"
                   ("Query execution failed: " +:+ exn_str e))).

Definition cleanup : M unit :=
  self ← gets db_manager;
  _ ← match _connection self with
      | Some c =>
          _ ← emit EvDbClose;
          set_manager (with_connection (Some (close c)))
      | None => mret tt
      end;
  disk ← gets fs;
  if path_exists disk (_temp_dir self) then
    _ ← emit (EvRmtree (_temp_dir self));
    set_fs (rmtree (_temp_dir self))
  else mret tt.

End Methods.
End DuckDBGDriveManager.

(** ** Text export of a data frame *)

(** [DataFrame.to_csv] belongs to the data-frame library, which is not
    part of the sources; [to_csv] below is modelled from the spec's export
    format.  The helpers give the standard minimal quoting of a field:
    only when it holds a comma, a quote or a line break. *)
Definition csv_special (c : ascii) : bool :=
  Ascii.eqb c ","%char || Ascii.eqb c dquote_char
  || Ascii.eqb c "010"%char || Ascii.eqb c "013"%char.

Fixpoint needs_quote (s : string) : bool :=
  match s with
  | EmptyString => false
  | String c rest => csv_special c || needs_quote rest
  end.

Fixpoint double_quotes (s : string) : string :=
  match s with
  | EmptyString => EmptyString
  | String c rest =>
      if Ascii.eqb c dquote_char
      then String c (String c (double_quotes rest))
      else String c (double_quotes rest)
  end.

Definition csv_field (s : string) : string :=
  if needs_quote s then dquote +:+ double_quotes s +:+ dquote else s.

Definition csv_line (fields : list string) : string :=
  match fields with
  | [EmptyString] => dquote +:+ dquote +:+ nl
  | _ => join comma (map csv_field fields) +:+ nl
  end.

Definition csv_cell (w : World) (c : cell) : string :=
  match c with
  | CNone => EmptyString
  | _ => str_cell w c
  end.

Fixpoint csv_rows (w : World) (index : bool) (i : Z) (rs : list (list cell))
  : string :=
  match rs with
  | [] => EmptyString
  | r :: rest =>
      csv_line ((if index then [str_int i] else []) ++ map (csv_cell w) r)
        +:+ csv_rows w index (i + 1) rest
  end.

(** Modelled from the spec: [DataFrame.to_csv(index=...)], which the
    sources call but do not contain.  The spec fixes the format as
    comma-separated values with a header row, and an index column only
    when [index] is set; a missing value is written as the empty field
    and every line ends with a line feed. *)
Definition to_csv (w : World) (index : bool) (df : DataFrame) : string :=
  csv_line ((if index then [EmptyString] else []) ++ columns df)
    +:+ csv_rows w index 0 (rows df).

(** ** The page: initial state and handlers *)

Definition initial_state : State :=
  {| credentials_content := JNull;
     connection_status := false;
     query := "SELECT *" +:+ nl +:+ "FROM your_table" +:+ nl +:+ "LIMIT 5;";
     results := None;
     state_table_info := None;
     execution_time := None;
     error_message := None |}.

Section Handlers.
Context (w : World).

Definition on_file_upload (file : string) : M json :=
  try_except
    (content ← call (EvJsonLoads file) (json_loads w file);
     _ ← set_state (with_credentials_content content);
     mret content)
    (λ e,
     _ ← notify "error" ("Invalid credentials file: " +:+ exn_str e);
     mret JNull).

Definition connect_database (fuel : nat) : M unit :=
  st ← gets state;
  if truthy (credentials_content st) then
    ok ← DuckDBGDriveManager.initialize_connection w fuel
           (credentials_content st);
    if ok : bool then
      _ ← set_state (with_connection_status true);
      info ← gets (λ s, table_info (db_manager s));
      _ ← set_state (with_state_table_info info);
      notify "success" "Connected successfully!"
    else notify "error" "Connection failed"
  else notify "error" "Please upload credentials first".

(** [datetime.now()] *)
Definition datetime_now : M Z :=
  _ ← emit EvNow;
  k ← tick;
  mret (now w k).

Definition execute_query : M unit :=
  st ← gets state;
  if negb (connection_status st) then
    notify "error" "Please connect to database first"
  else
    try_except
      (start_time ← datetime_now;
       q ← gets (λ s, query (state s));
       df ← DuckDBGDriveManager.execute_query w q;
       _ ← set_state (with_results (Some df));
       end_time ← datetime_now;
       let elapsed := total_seconds w (end_time - start_time) in
       _ ← set_state (with_execution_time (Some elapsed));
       _ ← set_state (with_error_message None);
       notify "success"
         ("Query executed in " +:+ format_2f w elapsed +:+ " seconds"))
      (λ e,
       _ ← set_state (with_error_message (Some (exn_str e)));
       notify "error" (exn_str e)).

Definition download_results : M (option string) :=
  st ← gets state;
  match results st with
  | Some df => mret (Some (to_csv w false df))
  | None => mret None
  end.

End Handlers.

(** ** A concrete world, for running the model *)

Module Demo.

Definition key_text : string :=
  "{" +:+ dquote +:+ "type" +:+ dquote +:+ ": " +:+ dquote
    +:+ "service_account" +:+ dquote +:+ "}".

Definition key_json : json := JObj [("type", JStr "service_account")].

Definition parse (text : string) : outcome json :=
  if String.eqb text key_text then Ok key_json
  else if String.eqb text "null" then Ok JNull
  else if String.eqb text "[]" then Ok (JArr [])
  else Raise (mkExn "JSONDecodeError"
                "Expecting value: line 1 column 1 (char 0)").

Definition dump (v : json) : outcome string :=
  match v with
  | JNull => Ok "null"
  | JArr [] => Ok "[]"
  | JObj [(k, JStr s)] =>
      Ok ("{" +:+ dquote +:+ k +:+ dquote +:+ ": " +:+ dquote +:+ s
            +:+ dquote +:+ "}")
  | _ => Raise (mkExn "TypeError" "Object is not JSON serializable")
  end.

Definition load_key (at_path : option node) (scopes : list string)
  : outcome unit :=
  match at_path with
  | Some (File text) =>
      if String.eqb text key_text then Ok tt
      else Raise (mkExn "ValueError"
                    "Service account info was not in the expected format")
  | _ => Raise (mkExn "FileNotFoundError" "No such file or directory")
  end.

Definition chunk (req : MediaRequest) (size : Z) (k : nat)
  : outcome (string * bool) :=
  match k with
  | 0%nat => Ok ("DUCK", false)
  | 1%nat => Ok ("DB", true)
  | _ => Raise (mkExn "HttpError" "Requested range not satisfiable")
  end.

Definition described (cols : list (string * string)) : DataFrame :=
  {| columns := ["column_name"; "column_type"];
     rows := map (λ c, [CStr c.1; CStr c.2]) cols |}.

Definition items_columns : DataFrame :=
  described [("item_code", "BIGINT"); ("item", "VARCHAR")].

Definition prices_columns : DataFrame :=
  described [("date", "DATE"); ("item_code", "BIGINT");
             ("price", "DOUBLE")].

Definition ab_frame : DataFrame :=
  {| columns := ["a"; "b"];
     rows := [[CInt 1; CStr "x"]; [CInt 2; CStr "y"]] |}.

Definition no_rows : DataFrame := {| columns := []; rows := [] |}.

Definition syntax_error : exn :=
  mkExn "ParserException" "Parser Error: syntax error at or near SELEC".

Definition engine (c : connection) (sql : string) : outcome DataFrame :=
  if conn_closed c then
    Raise (mkExn "ConnectionException"
             "Connection Error: Connection already closed!")
  else if String.eqb sql "SET memory_limit='4GB'" then Ok no_rows
  else if String.eqb sql "SET threads TO 4" then Ok no_rows
  else if String.eqb sql "SHOW TABLES" then
    Ok {| columns := ["name"];
          rows := [[CStr "items"]; [CStr "prices"]] |}
  else if String.eqb sql "DESCRIBE items" then Ok items_columns
  else if String.eqb sql "DESCRIBE prices" then Ok prices_columns
  else if String.eqb sql "SELECT 1 AS x" then
    Ok {| columns := ["x"]; rows := [[CInt 1]] |}
  else if String.eqb sql "SELECT a, b FROM t" then Ok ab_frame
  else Raise syntax_error.

Definition first_match : DriveFile := mkDriveFile "id-1" "pricecatcher.duckdb".
Definition second_match : DriveFile := mkDriveFile "id-2" "pricecatcher.duckdb".

(** The world, for a given answer of the storage listing. *)
Definition world (listing : ListResponse) : World :=
  {| mkdtemp := λ _, Ok "/tmp/tmpq3x";
     json_loads := parse;
     json_dump := dump;
     open_write := λ _, Ok tt;
     from_service_account_file := load_key;
     build := λ _ _ _, Ok tt;
     files_list := λ _ _ _ _, Ok listing;
     get_media := λ _ _, Ok tt;
     next_chunk := chunk;
     duckdb_connect := λ _ _ _, Ok tt;
     db_execute := engine;
     now := λ k, 1000000 * Z.of_nat k;
     total_seconds := λ us, if us =? 0 then S754_zero false
                            else S754_finite false 1 0;
     format_2f := λ x, match x with S754_zero _ => "0.00" | _ => "1.00" end;
     float_str := λ x, match x with S754_zero _ => "0.0" | _ => "1.0" end |}.

Definition two_matches : World :=
  world (mkListResponse (Some [first_match; second_match])).
Definition no_match : World := world (mkListResponse (Some [])).

(** The manager that [__init__] builds in this world, on an empty disk. *)
Definition manager0 : Manager :=
  {| _temp_dir := "/tmp/tmpq3x";
     _db_path := "/tmp/tmpq3x/pricecatcher.duckdb";
     _connection := None;
     FOLDER_ID := "1L0E2fSEAYrpzHV3Jwt1nznjTUJAKQcV_";
     DB_NAME := "pricecatcher.duckdb";
     table_info := None |}.

Definition boot : Sys :=
  {| state := initial_state; db_manager := manager0;
     fs := {[ "/tmp/tmpq3x" := Dir ]}; trace := []; ticks := 0 |}.

(** Run a handler and keep the state it leaves, whatever it returned. *)
Definition after {A} (m : M A) (s : Sys) : Sys :=
  match m s with
  | Some (_, s') => s'
  | None => s
  end.

Definition with_query (q : string) (s : Sys) : Sys :=
  {| state := {| credentials_content := credentials_content (state s);
                 connection_status := connection_status (state s);
                 query := q; results := results (state s);
                 state_table_info := state_table_info (state s);
                 execution_time := execution_time (state s);
                 error_message := error_message (state s) |};
     db_manager := db_manager s; fs := fs s; trace := trace s;
     ticks := ticks s |}.

Definition uploaded : Sys := after (on_file_upload two_matches key_text) boot.
Definition connected : Sys := after (connect_database two_matches 3) uploaded.
Definition queried : Sys :=
  after (execute_query two_matches) (with_query "SELECT a, b FROM t" connected).
Definition misspelled : Sys := with_query "SELEC * FROM t" queried.

End Demo.

(** * Vocabulary of the statements *)

(** The events that a run from [s] to [s'] added. *)
Definition new_events (s s' : Sys) : list event :=
  drop (length (trace s)) (trace s').

(** The exception that the manager's [execute_query] raises for [e]. *)
Definition wrapped (e : exn) : exn :=
  mkExn "Exception" ("Query execution failed: " +:+ exn_str e).

(** On a real disk, what lies below a directory implies the directory. *)
Definition holds_parent (d : string) (disk : gmap string node) : Prop :=
  ∀ p, under d p = true → is_Some (disk !! p) → is_Some (disk !! d).

(** [m] always gives a result: it needs no fuel. *)
Definition total {A} (m : M A) : Prop := ∀ s, is_Some (m s).

(** Every event that [m] adds to the trace satisfies [P]. *)
Definition emits {A} (P : event → Prop) (m : M A) : Prop :=
  ∀ s r s', m s = Some (r, s') →
    ∃ evs, trace s' = trace s ++ evs ∧ Forall P evs.

(** [m] leaves the component [proj] of the system as it was. *)
Definition keeps {X A} (proj : Sys → X) (m : M A) : Prop :=
  ∀ s r s', m s = Some (r, s') → proj s' = proj s.

(** An event that concerns the remote file [id], or no remote file. *)
Definition about_file (id : string) (ev : event) : Prop :=
  match ev with
  | EvGetMedia id' | EvNextChunk id' _ _ => id' = id
  | EvServiceAccount _ _ | EvBuild _ _ | EvFilesList _ _ _ => False
  | _ => True
  end.

Definition is_db_execute (ev : event) : Prop :=
  match ev with
  | EvDbExecute _ => True
  | _ => False
  end.

(** The answer of [next_chunk] that ends the loop: [done], or an error. *)
Definition chunk_final (o : outcome (string * bool)) : bool :=
  match o with
  | Ok (_, false) => false
  | _ => true
  end.

(** Within the first [n] calls, one ends the loop. *)
Definition halts_within (w : World) (req : MediaRequest) (n : nat) : Prop :=
  ∃ k, (k < n)%nat
       ∧ chunk_final (next_chunk w req DuckDBGDriveManager.chunksize k) = true.

(** The engine calls of the schema loop over [names]. *)
Definition describe_events (w : World) (names : list cell) : list event :=
  map (λ k, EvDbExecute ("DESCRIBE " +:+ str_cell w k)) names.

(** What selecting the column [name] of a frame means, said without
    the program's helpers: the column is the first one carrying that
    label, and its cells are the entries of the rows at that position,
    top to bottom (an absent entry reads as [None]). *)
Definition column_cells (df : DataFrame) (name : string)
    (cells : list cell) : Prop :=
  ∃ i,
    columns df !! i = Some name
    ∧ (∀ j, (j < i)%nat → columns df !! j ≠ Some name)
    ∧ length cells = length (rows df)
    ∧ ∀ k r, rows df !! k = Some r → cells !! k = Some (default CNone (r !! i)).

Module Steps.
Import DuckDBGDriveManager.

Definition creds_path (self : Manager) : string :=
  path_join (_temp_dir self) "creds.json".

Definition the_service (self : Manager) : DriveService :=
  mkService "drive" "v3" (mkCredentials (creds_path self) [drive_scope]).

Definition the_request (self : Manager) (first : DriveFile) : MediaRequest :=
  mkRequest (the_service self) (file_id first).

Definition the_connection (self : Manager) : connection :=
  mkConnection (_db_path self) true false.

(** The calls made up to and including the listing. *)
Definition listing_events (self : Manager) (c : json) : list event :=
  [EvOpenWrite (creds_path self); EvJsonDump c;
   EvServiceAccount (creds_path self) [drive_scope];
   EvBuild "drive" "v3";
   EvFilesList (drive_query self) "drive" "files(id, name)"].

(** Credential persistence, authentication and client construction
    succeed, and the listing answers [resp]. *)
Definition listing_answers (w : World) (self : Manager) (c : json)
    (resp : ListResponse) : Prop :=
  open_write w (creds_path self) = Ok tt
  ∧ ∃ text,
      json_dump w c = Ok text
      ∧ from_service_account_file w (Some (File text)) [drive_scope] = Ok tt
      ∧ build w "drive" "v3" (mkCredentials (creds_path self) [drive_scope])
        = Ok tt
      ∧ files_list w (the_service self) (drive_query self) "drive"
          "files(id, name)" = Ok resp.

(** The download of [first] completes, the database opens and accepts
    the two settings. *)
Definition opening_answers (w : World) (self : Manager) (first : DriveFile)
  : Prop :=
  get_media w (the_service self) (file_id first) = Ok tt
  ∧ open_write w (_db_path self) = Ok tt
  ∧ (∃ n data,
       next_chunk w (the_request self first) chunksize n = Ok (data, true)
       ∧ ∀ j, (j < n)%nat →
           chunk_final (next_chunk w (the_request self first) chunksize j)
           = false)
  ∧ (∃ at_path, duckdb_connect w (_db_path self) at_path true = Ok tt)
  ∧ is_ok (db_execute w (the_connection self) "SET memory_limit='4GB'")
    = true
  ∧ is_ok (db_execute w (the_connection self) "SET threads TO 4") = true.

(** The engine lists the tables and describes each listed name. *)
Definition schema_answers (w : World) (conn : connection)
    (names : list cell) : Prop :=
  (∃ tables, db_execute w conn "SHOW TABLES" = Ok tables
             ∧ df_column tables "name" = Ok names)
  ∧ ∀ k, k ∈ names →
      is_ok (db_execute w conn ("DESCRIBE " +:+ str_cell w k)) = true.

(** Every step of [initialize_connection] completes. *)
Definition every_step_completes (w : World) (self : Manager) (c : json)
  : Prop :=
  ∃ resp first rest names,
    listing_answers w self c resp
    ∧ resp_files resp = Some (first :: rest)
    ∧ opening_answers w self first
    ∧ schema_answers w (the_connection self) names.

(** The snapshot [info] is the engine's account of the tables: one
    entry for each listed name, holding the description of that name. *)
Definition snapshot_of (w : World) (conn : connection)
    (names : list cell) (info : list (cell * DataFrame)) : Prop :=
  NoDup info.*1
  ∧ (∀ k, k ∈ info.*1 ↔ k ∈ names)
  ∧ ∀ k, k ∈ names →
      ∃ df, db_execute w conn ("DESCRIBE " +:+ str_cell w k) = Ok df
            ∧ dict_get k info = Some df.

End Steps.

(** The two copies of the schema snapshot. *)
Definition snapshots (s : Sys)
  : option (list (cell * DataFrame)) * option (list (cell * DataFrame)) :=
  (table_info (db_manager s), state_table_info (state s)).

(** ** Vocabulary of the further properties *)

(** When [m] raises, the component [proj] is as it was. *)
Definition keeps_on_raise {X A} (proj : Sys → X) (m : M A) : Prop :=
  ∀ s e s', m s = Some (Raise e, s') → proj s' = proj s.

(** The attributes of the manager that [__init__] fixes. *)
Definition manager_constants (s : Sys) : string * string * string * string :=
  (_temp_dir (db_manager s), _db_path (db_manager s),
   FOLDER_ID (db_manager s), DB_NAME (db_manager s)).

(** The first [n] calls of [next_chunk] for the remote file [id]. *)
Definition chunk_events (id : string) (k n : nat) : list event :=
  map (EvNextChunk id DuckDBGDriveManager.chunksize) (seq k n).

(** The calls of a connection attempt that gets as far as the schema
    listing, for a download of [n] chunks. *)
Definition connect_events (self : Manager) (c : json) (first : DriveFile)
    (n : nat) : list event :=
  Steps.listing_events self c
    ++ [EvGetMedia (file_id first); EvOpenWrite (_db_path self)]
    ++ chunk_events (file_id first) 0 n
    ++ [EvDuckConnect (_db_path self) true;
        EvDbExecute "SET memory_limit='4GB'";
        EvDbExecute "SET threads TO 4"].

(** The download of [first] delivers the chunks [ds] and then [final],
    and the database made of them opens and accepts the two settings. *)
Definition database_opens (w : World) (self : Manager) (first : DriveFile)
    (ds : list string) (final : string) : Prop :=
  get_media w (Steps.the_service self) (file_id first) = Ok tt
  ∧ open_write w (_db_path self) = Ok tt
  ∧ (∀ j d, ds !! j = Some d →
       next_chunk w (Steps.the_request self first)
         DuckDBGDriveManager.chunksize j = Ok (d, false))
  ∧ next_chunk w (Steps.the_request self first)
      DuckDBGDriveManager.chunksize (length ds) = Ok (final, true)
  ∧ duckdb_connect w (_db_path self)
      (Some (File (foldr String.append final ds))) true = Ok tt
  ∧ is_ok (db_execute w (Steps.the_connection self) "SET memory_limit='4GB'")
    = true
  ∧ is_ok (db_execute w (Steps.the_connection self) "SET threads TO 4")
    = true.

(** Running [m] from a state where [P] holds ends in one where it
    holds. *)
Definition preserves {A} (P : Sys → Prop) (m : M A) : Prop :=
  ∀ s r s', m s = Some (r, s') → P s → P s'.

(** The manager has a connection object. *)
Definition has_handle (s : Sys) : Prop :=
  is_Some (_connection (db_manager s)).

(** What the page shows agrees with the manager: when it shows
    "connected", the manager has a connection object. *)
Definition page_consistent (s : Sys) : Prop :=
  connection_status (state s) = true → has_handle s.

(** Worlds for the further properties. *)
Module Scenario.

(** [w] with another database engine. *)
Definition with_engine (w : World)
    (engine : connection → string → outcome DataFrame) : World :=
  {| mkdtemp := mkdtemp w; json_loads := json_loads w;
     json_dump := json_dump w; open_write := open_write w;
     from_service_account_file := from_service_account_file w;
     build := build w; files_list := files_list w;
     get_media := get_media w; next_chunk := next_chunk w;
     duckdb_connect := duckdb_connect w; db_execute := engine;
     now := now w; total_seconds := total_seconds w;
     format_2f := format_2f w; float_str := float_str w |}.

Definition catalog_error : exn :=
  mkExn "CatalogException" "Catalog Error: Table with name prices does not exist!".

(** An engine that cannot describe the table [prices]. *)
Definition engine_without_prices (c : connection) (sql : string)
  : outcome DataFrame :=
  if String.eqb sql "DESCRIBE prices" then Raise catalog_error
  else Demo.engine c sql.

Definition broken_schema : World :=
  with_engine Demo.two_matches engine_without_prices.

Definition demo_connection : connection :=
  mkConnection "/tmp/tmpq3x/pricecatcher.duckdb" true false.

End Scenario.

(** * Properties *)

(** ** The model on small inputs *)

Example path_join_plain :
  path_join "/tmp/tmpq3x" "creds.json" = "/tmp/tmpq3x/creds.json".
Proof. reflexivity. Qed.

Example path_join_absolute : path_join "/tmp/tmpq3x" "/etc/x" = "/etc/x".
Proof. reflexivity. Qed.

Example under_sibling : under "/tmp/tmpq3x" "/tmp/tmpq3xy/creds.json" = false.
Proof. reflexivity. Qed.

Example str_int_negative : str_int (-12) = "-12".
Proof. reflexivity. Qed.

(** An empty JSON object parses, and is stored, but counts as no
    credentials for [if state.credentials_content:]. *)
Example truthy_empty_object : truthy (JObj []) = false.
Proof. reflexivity. Qed.

Example csv_field_comma : csv_field "a,b" = dquote +:+ "a,b" +:+ dquote.
Proof. reflexivity. Qed.

Example dict_set_keeps_place :
  dict_set (CStr "a") 3 [(CStr "a", 1); (CStr "b", 2)]
  = [(CStr "a", 3); (CStr "b", 2)].
Proof. reflexivity. Qed.

Example demo_connect_trace :
  new_events Demo.uploaded Demo.connected
  = [EvOpenWrite "/tmp/tmpq3x/creds.json";
     EvJsonDump Demo.key_json;
     EvServiceAccount "/tmp/tmpq3x/creds.json"
       ["https://www.googleapis.com/auth/drive.readonly"];
     EvBuild "drive" "v3";
     EvFilesList
       "name = 'pricecatcher.duckdb' and '1L0E2fSEAYrpzHV3Jwt1nznjTUJAKQcV_' in parents"
       "drive" "files(id, name)";
     EvGetMedia "id-1";
     EvOpenWrite "/tmp/tmpq3x/pricecatcher.duckdb";
     EvNextChunk "id-1" 1048576 0; EvNextChunk "id-1" 1048576 1;
     EvDuckConnect "/tmp/tmpq3x/pricecatcher.duckdb" true;
     EvDbExecute "SET memory_limit='4GB'";
     EvDbExecute "SET threads TO 4";
     EvDbExecute "SHOW TABLES";
     EvDbExecute "DESCRIBE items"; EvDbExecute "DESCRIBE prices";
     EvNotify "success" "Connected successfully!"].
Proof. vm_compute. reflexivity. Qed.

(** Without enough fuel for the chunk loop the model gives no result. *)
Example demo_out_of_fuel :
  connect_database Demo.two_matches 1 Demo.uploaded = None.
Proof. vm_compute. reflexivity. Qed.

(** ** Reasoning about runs *)

Lemma new_events_app s s' evs :
  trace s' = trace s ++ evs → new_events s s' = evs.
Proof. intros H. unfold new_events. rewrite H. by rewrite drop_app_length. Qed.

(** Closes goals [new_events s s' = evs] once [s'] is explicit. *)
Ltac solve_new_events :=
  apply new_events_app; cbn; rewrite <- ?app_assoc; reflexivity.

Lemma logged_logged evs1 evs2 s :
  logged evs2 (logged evs1 s) = logged (evs1 ++ evs2) s.
Proof. unfold logged; simpl. by rewrite app_assoc. Qed.

Lemma logged_nil s : logged [] s = s.
Proof. destruct s. unfold logged; simpl. by rewrite app_nil_r. Qed.

Lemma bind_ok {A B} (m : M A) (k : A → M B) s a s' :
  m s = Some (Ok a, s') → (m ≫= k) s = k a s'.
Proof. intros H. unfold mbind, M_bind. by rewrite H. Qed.

Lemma bind_raise {A B} (m : M A) (k : A → M B) s e s' :
  m s = Some (Raise e, s') → (m ≫= k) s = Some (Raise e, s').
Proof. intros H. unfold mbind, M_bind. by rewrite H. Qed.

Lemma bind_none {A B} (m : M A) (k : A → M B) s :
  m s = None → (m ≫= k) s = None.
Proof. intros H. unfold mbind, M_bind. by rewrite H. Qed.

Lemma call_ok {A} ev (a : A) s : call ev (Ok a) s = Some (Ok a, logged [ev] s).
Proof. reflexivity. Qed.

Lemma call_raise {A} ev e s :
  @call A ev (Raise e) s = Some (Raise e, logged [ev] s).
Proof. reflexivity. Qed.

Lemma try_except_ok {A} (m : M A) h s a s' :
  m s = Some (Ok a, s') → try_except m h s = Some (Ok a, s').
Proof. intros H. unfold try_except. by rewrite H. Qed.

Lemma try_except_raise {A} (m : M A) h s e s' :
  m s = Some (Raise e, s') → try_except m h s = h e s'.
Proof. intros H. unfold try_except. by rewrite H. Qed.

Lemma try_except_none {A} (m : M A) h s :
  m s = None → try_except m h s = None.
Proof. intros H. unfold try_except. by rewrite H. Qed.

(** ** The handlers that guard on the state *)

Section GuardFacts.
Context (w : World).

(** C3.  With [connection_status] false, the execute-query action only
    notifies the error "Please connect to database first": the run adds
    that single event to the trace, so no call reaches the database
    handle, and neither the UI state nor the manager changes. *)
Theorem execute_query_requires_connection (s : Sys) :
  connection_status (state s) = false →
  ∃ s',
    execute_query w s = Some (Ok tt, s')
    ∧ new_events s s' = [EvNotify "error" "Please connect to database first"]
    ∧ Forall (λ ev, is_database_call ev = false) (new_events s s')
    ∧ state s' = state s
    ∧ db_manager s' = db_manager s
    ∧ fs s' = fs s.
Proof.
  intros Hoff.
  exists (logged [EvNotify "error" "Please connect to database first"] s).
  assert (Hrun : execute_query w s
                 = Some (Ok tt, logged [EvNotify "error"
                                          "Please connect to database first"] s)).
  { unfold execute_query. rewrite (bind_ok _ _ s (state s) s); [|done].
    by rewrite Hoff. }
  rewrite (new_events_app s _ [EvNotify "error"
                                 "Please connect to database first"]); [|done].
  repeat split; try done.
  by repeat constructor.
Qed.

(** C4.  With no credentials stored ([None]), the connect action only
    notifies the error "Please upload credentials first", whatever the
    fuel: the run adds that single event, so the remote fetcher is not
    invoked, and nothing else changes. *)
Theorem connect_database_requires_credentials (fuel : nat) (s : Sys) :
  credentials_content (state s) = JNull →
  ∃ s',
    connect_database w fuel s = Some (Ok tt, s')
    ∧ new_events s s' = [EvNotify "error" "Please upload credentials first"]
    ∧ Forall (λ ev, is_remote_call ev = false) (new_events s s')
    ∧ state s' = state s
    ∧ db_manager s' = db_manager s
    ∧ fs s' = fs s.
Proof.
  intros Hnone.
  exists (logged [EvNotify "error" "Please upload credentials first"] s).
  assert (Hrun : connect_database w fuel s
                 = Some (Ok tt, logged [EvNotify "error"
                                          "Please upload credentials first"] s)).
  { unfold connect_database. rewrite (bind_ok _ _ s (state s) s); [|done].
    by rewrite Hnone. }
  rewrite (new_events_app s _ [EvNotify "error"
                                 "Please upload credentials first"]); [|done].
  repeat split; try done.
  by repeat constructor.
Qed.

End GuardFacts.

Lemma execute_query_requires_connection_witness :
  ∃ s',
    execute_query Demo.two_matches Demo.uploaded = Some (Ok tt, s')
    ∧ new_events Demo.uploaded s'
      = [EvNotify "error" "Please connect to database first"]
    ∧ Forall (λ ev, is_database_call ev = false) (new_events Demo.uploaded s')
    ∧ state s' = state Demo.uploaded
    ∧ db_manager s' = db_manager Demo.uploaded
    ∧ fs s' = fs Demo.uploaded.
Proof.
  apply (execute_query_requires_connection Demo.two_matches Demo.uploaded).
  reflexivity.
Defined.

Lemma connect_database_requires_credentials_witness :
  ∃ s',
    connect_database Demo.two_matches 3 Demo.boot = Some (Ok tt, s')
    ∧ new_events Demo.boot s'
      = [EvNotify "error" "Please upload credentials first"]
    ∧ Forall (λ ev, is_remote_call ev = false) (new_events Demo.boot s')
    ∧ state s' = state Demo.boot
    ∧ db_manager s' = db_manager Demo.boot
    ∧ fs s' = fs Demo.boot.
Proof.
  apply (connect_database_requires_credentials Demo.two_matches 3 Demo.boot).
  reflexivity.
Defined.

(** ** The credential loader *)

Section LoaderFacts.
Context (w : World).

(** C2.  When [json.loads] accepts the text, the loader returns the
    parsed value without raising and stores exactly that value as the
    credentials, with no notification.  When it rejects the text, the
    loader still returns normally (with [None]), emits the error
    notification "Invalid credentials file: ..." and does not assign the
    credentials: the whole UI state is as before, so credentials that
    were unset stay unset. *)
Theorem on_file_upload_stores_or_reports (file : string) (s : Sys) :
  (∀ v, json_loads w file = Ok v →
     ∃ s',
       on_file_upload w file s = Some (Ok v, s')
       ∧ credentials_content (state s') = v
       ∧ new_events s s' = [EvJsonLoads file])
  ∧ (∀ e, json_loads w file = Raise e →
     ∃ s',
       on_file_upload w file s = Some (Ok JNull, s')
       ∧ state s' = state s
       ∧ (credentials_content (state s) = JNull →
          credentials_content (state s') = JNull)
       ∧ new_events s s'
         = [EvJsonLoads file;
            EvNotify "error" ("Invalid credentials file: " +:+ exn_str e)]).
Proof.
  split.
  - intros v Hv. unfold on_file_upload, try_except.
    unfold mbind, M_bind. rewrite Hv. cbn.
    eexists. split; [reflexivity|]. split; [reflexivity|].
    solve_new_events.
  - intros e He. unfold on_file_upload, try_except.
    unfold mbind, M_bind. rewrite He. cbn.
    eexists. split; [reflexivity|]. cbn. split; [reflexivity|].
    split; [done|].
    solve_new_events.
Qed.

End LoaderFacts.

Lemma on_file_upload_stores_or_reports_witness :
  (∃ s',
     on_file_upload Demo.two_matches Demo.key_text Demo.boot
       = Some (Ok Demo.key_json, s')
     ∧ credentials_content (state s') = Demo.key_json
     ∧ new_events Demo.boot s' = [EvJsonLoads Demo.key_text])
  ∧ (∃ s',
       on_file_upload Demo.two_matches "{type:" Demo.boot = Some (Ok JNull, s')
       ∧ state s' = state Demo.boot
       ∧ (credentials_content (state Demo.boot) = JNull →
          credentials_content (state s') = JNull)
       ∧ new_events Demo.boot s'
         = [EvJsonLoads "{type:";
            EvNotify "error"
              "Invalid credentials file: Expecting value: line 1 column 1 (char 0)"]).
Proof.
  split.
  - apply (proj1 (on_file_upload_stores_or_reports
                    Demo.two_matches Demo.key_text Demo.boot)).
    reflexivity.
  - apply (proj2 (on_file_upload_stores_or_reports
                    Demo.two_matches "{type:" Demo.boot)
             (mkExn "JSONDecodeError"
                "Expecting value: line 1 column 1 (char 0)")).
    reflexivity.
Defined.

(** ** The query executor *)

Section ExecutorFacts.
Context (w : World).

Lemma manager_execute_query_ok s c q df :
  _connection (db_manager s) = Some c →
  db_execute w c q = Ok df →
  DuckDBGDriveManager.execute_query w q s
    = Some (Ok df, logged [EvDbExecute q] s).
Proof.
  intros Hc Hq.
  unfold DuckDBGDriveManager.execute_query,
    DuckDBGDriveManager.connection_execute, try_except, mbind, M_bind.
  cbn. rewrite Hc. cbn. rewrite Hc. cbn. by rewrite Hq.
Qed.

Lemma manager_execute_query_rejected s c q e :
  _connection (db_manager s) = Some c →
  db_execute w c q = Raise e →
  DuckDBGDriveManager.execute_query w q s
    = Some (Raise (wrapped e), logged [EvDbExecute q] s).
Proof.
  intros Hc Hq.
  unfold DuckDBGDriveManager.execute_query,
    DuckDBGDriveManager.connection_execute, try_except, mbind, M_bind.
  cbn. rewrite Hc. cbn. rewrite Hc. cbn. by rewrite Hq.
Qed.

Lemma manager_execute_query_no_connection s q :
  _connection (db_manager s) = None →
  DuckDBGDriveManager.execute_query w q s
    = Some (Raise (wrapped (mkExn "Exception" "Database not connected")), s).
Proof.
  intros Hc.
  unfold DuckDBGDriveManager.execute_query, try_except, mbind, M_bind.
  cbn. by rewrite Hc.
Qed.

(** What the page-level handler makes of a failure of the manager's
    method: the text goes to [error_message] and to an error
    notification; [results] and [execution_time] are not assigned. *)
Lemma execute_query_failure s e s2 :
  connection_status (state s) = true →
  DuckDBGDriveManager.execute_query w (query (state s))
      (next_tick (logged [EvNow] s))
    = Some (Raise e, s2) →
  execute_query w s
    = Some (Ok tt,
            logged [EvNotify "error" (exn_str e)]
              (on_state (with_error_message (Some (exn_str e))) s2)).
Proof.
  intros Hon Hrun.
  unfold execute_query. rewrite (bind_ok _ _ s (state s) s); [|done].
  rewrite Hon. cbn [negb].
  erewrite try_except_raise; [reflexivity|].
  unfold datetime_now, tick, emit, modify, gets, mbind, M_bind. cbn.
  by rewrite Hrun.
Qed.

End ExecutorFacts.

Section ExecutorClaims.
Context (w : World).

(** C1.  With a connection in place, when the engine rejects the SQL
    text of [state.query] with an error, the handler shows the user the
    engine's error text, unchanged, after the fixed words "Query
    execution failed: " with which the manager wraps every failure (in
    [error_message] and in the error notification).  [state.results]
    keeps the value it had. *)
Theorem rejected_query_is_reported_with_prefix (s : Sys) c e :
  connection_status (state s) = true →
  _connection (db_manager s) = Some c →
  db_execute w c (query (state s)) = Raise e →
  ∃ s',
    execute_query w s = Some (Ok tt, s')
    ∧ error_message (state s')
      = Some ("Query execution failed: " +:+ exn_str e)
    ∧ new_events s s'
      = [EvNow; EvDbExecute (query (state s));
         EvNotify "error" ("Query execution failed: " +:+ exn_str e)]
    ∧ results (state s') = results (state s).
Proof.
  intros Hon Hc Hq.
  eexists. split.
  - apply execute_query_failure; [done|].
    by apply (manager_execute_query_rejected w _ c).
  - cbn. split; [reflexivity|]. split; [|reflexivity].
    solve_new_events.
Qed.

(** C10.  With [connection_status] true: a successful execution stores
    the result, records the elapsed time and resets [error_message] to
    [None]; a failed execution (the engine rejects the text, or the
    manager has no connection object) sets [error_message] to the text
    of the failure and leaves [execution_time] as it was. *)
Theorem execute_query_error_message (s : Sys) :
  connection_status (state s) = true →
  (∀ c df,
     _connection (db_manager s) = Some c →
     db_execute w c (query (state s)) = Ok df →
     ∃ s',
       execute_query w s = Some (Ok tt, s')
       ∧ error_message (state s') = None
       ∧ results (state s') = Some df
       ∧ execution_time (state s')
         = Some (total_seconds w (now w (S (ticks s)) - now w (ticks s))))
  ∧ (∀ c e,
     _connection (db_manager s) = Some c →
     db_execute w c (query (state s)) = Raise e →
     ∃ s',
       execute_query w s = Some (Ok tt, s')
       ∧ error_message (state s')
         = Some ("Query execution failed: " +:+ exn_str e)
       ∧ execution_time (state s') = execution_time (state s))
  ∧ (_connection (db_manager s) = None →
     ∃ s',
       execute_query w s = Some (Ok tt, s')
       ∧ error_message (state s')
         = Some "Query execution failed: Database not connected"
       ∧ execution_time (state s') = execution_time (state s)).
Proof.
  intros Hon. split; [|split].
  - intros c df Hc Hq.
    unfold execute_query. rewrite (bind_ok _ _ s (state s) s); [|done].
    rewrite Hon. cbn [negb].
    eexists. split.
    + apply try_except_ok.
      unfold datetime_now, tick, emit, modify, gets, mbind, M_bind. cbn.
      erewrite manager_execute_query_ok; [|exact Hc|exact Hq].
      reflexivity.
    + by cbn.
  - intros c e Hc Hq.
    eexists. split.
    + apply execute_query_failure; [done|].
      by apply (manager_execute_query_rejected w _ c).
    + by cbn.
  - intros Hc.
    eexists. split.
    + apply execute_query_failure; [done|].
      by apply manager_execute_query_no_connection.
    + by cbn.
Qed.

End ExecutorClaims.

Lemma rejected_query_is_reported_with_prefix_witness :
  ∃ s',
    execute_query Demo.two_matches Demo.misspelled = Some (Ok tt, s')
    ∧ error_message (state s')
      = Some ("Query execution failed: " +:+ exn_str Demo.syntax_error)
    ∧ new_events Demo.misspelled s'
      = [EvNow; EvDbExecute (query (state Demo.misspelled));
         EvNotify "error"
           ("Query execution failed: " +:+ exn_str Demo.syntax_error)]
    ∧ results (state s') = results (state Demo.misspelled).
Proof.
  apply (rejected_query_is_reported_with_prefix Demo.two_matches
           Demo.misspelled
           (mkConnection "/tmp/tmpq3x/pricecatcher.duckdb" true false)
           Demo.syntax_error); reflexivity.
Defined.

Lemma execute_query_error_message_witness :
  (∃ s',
     execute_query Demo.two_matches (Demo.with_query "SELECT 1 AS x" Demo.misspelled)
       = Some (Ok tt, s')
     ∧ error_message (state s') = None)
  ∧ (∃ s',
       execute_query Demo.two_matches Demo.misspelled = Some (Ok tt, s')
       ∧ error_message (state s')
         = Some ("Query execution failed: " +:+ exn_str Demo.syntax_error)
       ∧ execution_time (state s') = execution_time (state Demo.misspelled)).
Proof.
  split.
  - destruct (proj1 (execute_query_error_message Demo.two_matches
                       (Demo.with_query "SELECT 1 AS x" Demo.misspelled)
                       eq_refl)
                (mkConnection "/tmp/tmpq3x/pricecatcher.duckdb" true false)
                {| columns := ["x"]; rows := [[CInt 1]] |}
                eq_refl eq_refl) as (s' & Hrun & Hmsg & _).
    exists s'. by split.
  - apply (proj1 (proj2 (execute_query_error_message Demo.two_matches
                           Demo.misspelled eq_refl))
             (mkConnection "/tmp/tmpq3x/pricecatcher.duckdb" true false)
             Demo.syntax_error); reflexivity.
Defined.

(** ** Export *)

Section ExportFacts.
Context (w : World).

(** C7.  For the stored result with columns [a, b] and rows
    [(1, "x"), (2, "y")], [download_results] returns the text made of
    the header line [a,b] and the lines [1,x] and [2,y], each ended by
    a line feed; there is no index column.  The state is not changed. *)
Theorem download_results_two_rows (s : Sys) :
  results (state s) = Some Demo.ab_frame →
  download_results w s
    = Some (Ok (Some ("a,b" +:+ nl +:+ "1,x" +:+ nl +:+ "2,y" +:+ nl)), s).
Proof.
  intros Hres. unfold download_results.
  rewrite (bind_ok _ _ s (state s) s); [|done].
  by rewrite Hres.
Qed.

(** For contrast: the same frame exported with the index column. *)
Example to_csv_with_index :
  to_csv w true Demo.ab_frame
    = ",a,b" +:+ nl +:+ "0,1,x" +:+ nl +:+ "1,2,y" +:+ nl.
Proof. reflexivity. Qed.

(** Without a stored result the export returns [None]. *)
Lemma download_results_nothing (s : Sys) :
  results (state s) = None → download_results w s = Some (Ok None, s).
Proof.
  intros Hres. unfold download_results.
  rewrite (bind_ok _ _ s (state s) s); [|done].
  by rewrite Hres.
Qed.

End ExportFacts.

Lemma download_results_two_rows_witness :
  download_results Demo.two_matches Demo.queried
    = Some (Ok (Some ("a,b" +:+ nl +:+ "1,x" +:+ nl +:+ "2,y" +:+ nl)),
            Demo.queried).
Proof.
  apply (download_results_two_rows Demo.two_matches Demo.queried).
  reflexivity.
Defined.

(** ** Paths and the temporary directory *)

Lemma append_assoc (a b c : string) : (a +:+ b) +:+ c = a +:+ (b +:+ c).
Proof.
  induction a as [|x a IH]; [done|].
  change (String x ((a +:+ b) +:+ c) = String x (a +:+ (b +:+ c))).
  by rewrite IH.
Qed.

Lemma prefix_append (a b : string) : String.prefix a (a +:+ b) = true.
Proof.
  induction a as [|x a IH].
  - by destruct b.
  - change (String.prefix (String x a) (String x (a +:+ b)) = true).
    simpl. destruct (ascii_dec x x); [done|congruence].
Qed.

(** A file that [os.path.join] places in a directory lies under it. *)
Lemma path_join_under (d name : string) :
  d ≠ EmptyString →
  String.prefix slash name = false →
  under d (path_join d name) = true.
Proof.
  intros Hd Hname. unfold path_join, under, dir_prefix. rewrite Hname.
  destruct (String.eqb_spec d EmptyString) as [->|_]; [done|]. simpl.
  destruct (ends_with_slash d).
  - rewrite prefix_append. apply orb_true_r.
  - rewrite <- append_assoc, prefix_append. apply orb_true_r.
Qed.

Lemma under_self (d : string) : under d d = true.
Proof. unfold under. by rewrite String.eqb_refl. Qed.

Lemma rmtree_under (d p : string) (disk : gmap string node) :
  under d p = true → rmtree d disk !! p = None.
Proof.
  intros Hp. unfold rmtree. apply map_lookup_filter_None. right.
  intros x _. simpl. by rewrite Hp.
Qed.

Lemma rmtree_other (d p : string) (disk : gmap string node) :
  under d p = false → rmtree d disk !! p = disk !! p.
Proof.
  intros Hp. unfold rmtree.
  destruct (disk !! p) as [x|] eqn:Hx.
  - apply map_lookup_filter_Some. by split.
  - apply map_lookup_filter_None. by left.
Qed.

Section CleanupFacts.

(** C9.  Whatever the manager's state, [cleanup] returns normally.  If
    there is a connection object it is closed (the close call is in the
    trace and the handle is marked closed).  Afterwards no path at or
    below the temporary directory is on disk; in particular neither the
    credential file nor the database file that [os.path.join] places in
    it.  Paths outside the directory are not touched. *)
Theorem cleanup_leaves_nothing (s : Sys) :
  holds_parent (_temp_dir (db_manager s)) (fs s) →
  ∃ s',
    DuckDBGDriveManager.cleanup s = Some (Ok tt, s')
    ∧ (∀ c, _connection (db_manager s) = Some c →
         _connection (db_manager s') = Some (close c)
         ∧ In EvDbClose (new_events s s'))
    ∧ (_connection (db_manager s) = None →
         _connection (db_manager s') = None)
    ∧ (∀ p, under (_temp_dir (db_manager s)) p = true → fs s' !! p = None)
    ∧ (∀ p, under (_temp_dir (db_manager s)) p = false →
         fs s' !! p = fs s !! p)
    ∧ (_temp_dir (db_manager s) ≠ EmptyString →
         fs s' !! path_join (_temp_dir (db_manager s)) "creds.json" = None
         ∧ fs s' !! path_join (_temp_dir (db_manager s))
                      "pricecatcher.duckdb" = None).
Proof.
  intros Hdisk.
  set (d := _temp_dir (db_manager s)) in *.
  assert (Hfiles : ∀ disk' : gmap string node,
            (∀ p, under d p = true → disk' !! p = None) →
            d ≠ EmptyString →
            disk' !! path_join d "creds.json" = None
            ∧ disk' !! path_join d "pricecatcher.duckdb" = None).
  { intros disk' Hgone Hd. split; apply Hgone; by apply path_join_under. }
  unfold DuckDBGDriveManager.cleanup.
  rewrite (bind_ok _ _ s (db_manager s) s); [|done].
  destruct (_connection (db_manager s)) as [c|] eqn:Hc.
  - unfold emit, set_manager, set_fs, modify, gets, mbind, M_bind. cbn.
    fold d. destruct (path_exists (fs s) d) eqn:Hex.
    + eexists. split; [reflexivity|]. cbn.
      assert (Hgone : ∀ p, under d p = true → rmtree d (fs s) !! p = None)
        by (intros p Hp; by apply rmtree_under).
      split; [|split; [done|split; [done|split]]].
      * intros c' [= <-]. split; [done|].
        erewrite new_events_app; [|cbn; rewrite <- ?app_assoc; reflexivity].
        by left.
      * intros p Hp. by apply rmtree_other.
      * by apply Hfiles.
    + eexists. split; [reflexivity|]. cbn.
      assert (Hgone : ∀ p, under d p = true → fs s !! p = None).
      { intros p Hp. apply eq_None_not_Some. intros Hsome.
        apply bool_decide_eq_false in Hex. apply Hex. by apply (Hdisk p). }
      split; [|split; [done|split; [done|split; [done|]]]].
      * intros c' [= <-]. split; [done|].
        erewrite new_events_app; [|cbn; rewrite <- ?app_assoc; reflexivity].
        by left.
      * by apply Hfiles.
  - unfold emit, set_manager, set_fs, modify, gets, mbind, M_bind. cbn.
    fold d. destruct (path_exists (fs s) d) eqn:Hex.
    + eexists. split; [reflexivity|]. cbn.
      assert (Hgone : ∀ p, under d p = true → rmtree d (fs s) !! p = None)
        by (intros p Hp; by apply rmtree_under).
      split; [done|split; [done|split; [done|split]]].
      * intros p Hp. by apply rmtree_other.
      * by apply Hfiles.
    + eexists. split; [reflexivity|]. cbn.
      assert (Hgone : ∀ p, under d p = true → fs s !! p = None).
      { intros p Hp. apply eq_None_not_Some. intros Hsome.
        apply bool_decide_eq_false in Hex. apply Hex. by apply (Hdisk p). }
      split; [done|split; [done|split; [done|split; [done|]]]].
      by apply Hfiles.
Qed.

End CleanupFacts.

(** ** Stepping through a handler *)

Lemma bind_gets {A B} (f : Sys → A) (k : A → M B) s :
  (gets f ≫= k) s = k (f s) s.
Proof. reflexivity. Qed.

Lemma bind_modify {B} (f : Sys → Sys) (k : unit → M B) s :
  (modify f ≫= k) s = k tt (f s).
Proof. reflexivity. Qed.

Lemma bind_set_fs {B} f (k : unit → M B) s :
  (set_fs f ≫= k) s = k tt (on_fs f s).
Proof. reflexivity. Qed.

Lemma bind_set_manager {B} f (k : unit → M B) s :
  (set_manager f ≫= k) s = k tt (on_manager f s).
Proof. reflexivity. Qed.

Lemma bind_call {A B} ev (o : outcome A) (k : A → M B) s :
  (call ev o ≫= k) s
  = match o with
    | Ok a => k a (logged [ev] s)
    | Raise e => Some (Raise e, logged [ev] s)
    end.
Proof. by destruct o. Qed.

Lemma bind_assoc {A B C} (m : M A) (f : A → M B) (g : B → M C) s :
  ((m ≫= f) ≫= g) s = (m ≫= λ x, f x ≫= g) s.
Proof. unfold mbind, M_bind. by destruct (m s) as [[[a|e] s1]|]. Qed.

Lemma bind_inv {A B} (m : M A) (k : A → M B) s r s' :
  (m ≫= k) s = Some (r, s') →
  (∃ a s1, m s = Some (Ok a, s1) ∧ k a s1 = Some (r, s'))
  ∨ (∃ e, m s = Some (Raise e, s') ∧ r = Raise e).
Proof.
  unfold mbind, M_bind. destruct (m s) as [[[a|e] s1]|]; intros H.
  - left. by exists a, s1.
  - right. exists e. by injection H as <- <-.
  - discriminate.
Qed.

Ltac tidy :=
  cbn [state db_manager fs trace ticks logged on_fs on_manager on_state
       next_tick _temp_dir _db_path _connection FOLDER_ID DB_NAME table_info
       with_connection with_table_info].

(** ** [total], [emits] and [keeps] compose along [bind] *)

Section Composition.
Context {A B : Type}.

Lemma total_bind (m : M A) (k : A → M B) :
  total m → (∀ a, total (k a)) → total (m ≫= k).
Proof.
  intros Hm Hk s. unfold mbind, M_bind.
  destruct (Hm s) as [[[a|e] s1] ->]; [apply Hk|done].
Qed.

Lemma emits_bind P (m : M A) (k : A → M B) :
  emits P m → (∀ a, emits P (k a)) → emits P (m ≫= k).
Proof.
  intros Hm Hk s r s' Hrun.
  apply bind_inv in Hrun as [(a & s1 & H1 & H2)|(e & H1 & _)].
  - apply Hm in H1 as (evs1 & E1 & HP1).
    apply Hk in H2 as (evs2 & E2 & HP2).
    exists (evs1 ++ evs2). split; [by rewrite E2, E1, app_assoc|].
    by apply Forall_app.
  - by apply Hm in H1.
Qed.

Lemma keeps_bind {X} (proj : Sys → X) (m : M A) (k : A → M B) :
  keeps proj m → (∀ a, keeps proj (k a)) → keeps proj (m ≫= k).
Proof.
  intros Hm Hk s r s' Hrun.
  apply bind_inv in Hrun as [(a & s1 & H1 & H2)|(e & H1 & _)].
  - apply Hm in H1. apply Hk in H2. congruence.
  - by apply Hm in H1.
Qed.

Lemma total_try_except (m : M A) (h : exn → M A) :
  total m → (∀ e, total (h e)) → total (try_except m h).
Proof.
  intros Hm Hh s. unfold try_except.
  destruct (Hm s) as [[[a|e] s1] ->]; [done|apply Hh].
Qed.

Lemma emits_try_except P (m : M A) (h : exn → M A) :
  emits P m → (∀ e, emits P (h e)) → emits P (try_except m h).
Proof.
  intros Hm Hh s r s' Hrun. unfold try_except in Hrun.
  destruct (m s) as [[[a|e] s1]|] eqn:H1; [| |done].
  { injection Hrun as <- <-. by apply (Hm s (Ok a)). }
  apply Hm in H1 as (evs1 & E1 & HP1).
  apply Hh in Hrun as (evs2 & E2 & HP2).
  exists (evs1 ++ evs2). split; [by rewrite E2, E1, app_assoc|].
  by apply Forall_app.
Qed.

Lemma keeps_try_except {X} (proj : Sys → X) (m : M A) (h : exn → M A) :
  keeps proj m → (∀ e, keeps proj (h e)) → keeps proj (try_except m h).
Proof.
  intros Hm Hh s r s' Hrun. unfold try_except in Hrun.
  destruct (m s) as [[[a|e] s1]|] eqn:H1; [| |done].
  { injection Hrun as <- <-. by apply (Hm s (Ok a)). }
  apply Hm in H1. apply Hh in Hrun. congruence.
Qed.

Lemma total_ret (a : A) : total (mret a).
Proof. by eexists. Qed.

Lemma total_raise e : total (@raise A e).
Proof. by eexists. Qed.

Lemma total_gets (f : Sys → A) : total (gets f).
Proof. by eexists. Qed.

Lemma total_call ev (o : outcome A) : total (call ev o).
Proof. intros s. destruct o; by eexists. Qed.

Lemma emits_ret P (a : A) : emits P (mret a).
Proof.
  intros s r s' [= <- <-]. exists []. by rewrite app_nil_r.
Qed.

Lemma emits_raise P e : emits P (@raise A e).
Proof.
  intros s r s' [= <- <-]. exists []. by rewrite app_nil_r.
Qed.

Lemma emits_gets P (f : Sys → A) : emits P (gets f).
Proof.
  intros s r s' [= <- <-]. exists []. by rewrite app_nil_r.
Qed.

Lemma emits_call (P : event → Prop) ev (o : outcome A) :
  P ev → emits P (call ev o).
Proof.
  intros HP s r s' Hrun. exists [ev]. split; [|by constructor].
  destruct o; by injection Hrun as <- <-.
Qed.

Lemma keeps_ret {X} (proj : Sys → X) (a : A) : keeps proj (mret a).
Proof. by intros s r s' [= <- <-]. Qed.

Lemma keeps_raise {X} (proj : Sys → X) e : keeps proj (@raise A e).
Proof. by intros s r s' [= <- <-]. Qed.

Lemma keeps_gets {X} (proj : Sys → X) (f : Sys → A) : keeps proj (gets f).
Proof. by intros s r s' [= <- <-]. Qed.

Lemma keeps_call {X} (proj : Sys → X) ev (o : outcome A) :
  (∀ s, proj (logged [ev] s) = proj s) → keeps proj (call ev o).
Proof.
  intros Hp s r s' Hrun. destruct o; by injection Hrun as <- <-.
Qed.

End Composition.

Lemma total_modify f : total (modify f).
Proof. by eexists. Qed.

Lemma emits_modify P f :
  (∀ s, trace (f s) = trace s) → emits P (modify f).
Proof.
  intros Hf s r s' [= <- <-]. exists []. by rewrite app_nil_r.
Qed.

Lemma emits_emit (P : event → Prop) ev : P ev → emits P (emit ev).
Proof.
  intros HP s r s' [= <- <-]. exists [ev]. split; [done|by constructor].
Qed.

Lemma keeps_modify {X} (proj : Sys → X) f :
  (∀ s, proj (f s) = proj s) → keeps proj (modify f).
Proof. by intros Hf s r s' [= <- <-]. Qed.

(** Breaks a goal about a composite computation into goals about its
    parts, and closes those about the primitive ones. *)
Ltac run_step :=
  first
    [ apply total_call | apply emits_call | apply emits_emit
    | apply keeps_call; reflexivity
    | apply total_bind | apply emits_bind | apply keeps_bind
    | apply total_try_except | apply emits_try_except
    | apply keeps_try_except
    | apply total_ret | apply total_raise | apply total_gets
    | apply total_modify
    | apply emits_ret | apply emits_raise | apply emits_gets
    | apply emits_modify; reflexivity
    | apply keeps_ret | apply keeps_raise | apply keeps_gets
    | apply keeps_modify; reflexivity
    | intros ].

Ltac run_parts := repeat run_step.

(** ** Dictionaries *)

Section DictFacts.
Context {V : Type}.
Implicit Types (d : list (cell * V)) (k : cell) (v : V).

Lemma dict_get_set_eq k v d : dict_get k (dict_set k v d) = Some v.
Proof.
  induction d as [|[k0 v0] d IH]; simpl.
  - by rewrite decide_True.
  - destruct (decide (k0 = k)) as [->|Hne]; simpl.
    + by rewrite decide_True.
    + by rewrite decide_False.
Qed.

Lemma dict_get_set_ne k k' v d :
  k ≠ k' → dict_get k' (dict_set k v d) = dict_get k' d.
Proof.
  intros Hne. induction d as [|[k0 v0] d IH]; simpl.
  - by rewrite decide_False.
  - destruct (decide (k0 = k)) as [->|Hne0]; simpl.
    + by rewrite !decide_False.
    + by rewrite IH.
Qed.

Lemma dict_set_keys k k' v d :
  k' ∈ (dict_set k v d).*1 ↔ k' = k ∨ k' ∈ d.*1.
Proof.
  induction d as [|[k0 v0] d IH]; simpl.
  - rewrite list_elem_of_singleton, elem_of_nil. tauto.
  - destruct (decide (k0 = k)) as [->|Hne0]; simpl.
    + rewrite !elem_of_cons. tauto.
    + rewrite !elem_of_cons, IH. tauto.
Qed.

Lemma dict_set_NoDup k v d : NoDup d.*1 → NoDup (dict_set k v d).*1.
Proof.
  induction d as [|[k0 v0] d IH]; simpl; intros Hd.
  - apply NoDup_singleton.
  - apply NoDup_cons in Hd as [Hk0 Hd].
    destruct (decide (k0 = k)) as [->|Hne0]; simpl.
    + by apply NoDup_cons.
    + apply NoDup_cons. split; [|by apply IH].
      rewrite dict_set_keys. tauto.
Qed.

Lemma dict_get_Some_key k v d : dict_get k d = Some v → k ∈ d.*1.
Proof.
  induction d as [|[k0 v0] d IH]; simpl; [done|].
  rewrite elem_of_cons.
  destruct (decide (k0 = k)) as [->|Hne0]; [by left|].
  intros Hget. right. by apply IH.
Qed.

End DictFacts.

(** ** The manager's methods *)

Section ManagerFacts.
Context (w : World).
Import DuckDBGDriveManager.

Lemma connection_execute_run sql s c :
  _connection (db_manager s) = Some c →
  connection_execute w sql s = call (EvDbExecute sql) (db_execute w c sql) s.
Proof.
  intros Hc. unfold connection_execute. rewrite bind_gets. by rewrite Hc.
Qed.

Lemma connection_execute_inv sql s df s' :
  connection_execute w sql s = Some (Ok df, s') →
  ∃ c, _connection (db_manager s) = Some c
       ∧ db_execute w c sql = Ok df
       ∧ s' = logged [EvDbExecute sql] s.
Proof.
  unfold connection_execute. rewrite bind_gets.
  destruct (_connection (db_manager s)) as [c|]; [|discriminate].
  destruct (db_execute w c sql) as [df'|e] eqn:Hq; [|discriminate].
  intros [= <- <-]. by exists c.
Qed.

Lemma total_connection_execute sql : total (connection_execute w sql).
Proof.
  unfold connection_execute. apply total_bind; [run_parts|].
  intros self. destruct (_connection self); run_parts.
Qed.

Lemma emits_connection_execute (P : event → Prop) sql :
  P (EvDbExecute sql) → emits P (connection_execute w sql).
Proof.
  intros HP. unfold connection_execute. apply emits_bind; [run_parts|].
  intros self. destruct (_connection self); run_parts. done.
Qed.

Lemma keeps_connection_execute {X} (proj : Sys → X) sql :
  (∀ ev s, proj (logged [ev] s) = proj s) →
  keeps proj (connection_execute w sql).
Proof.
  intros Hp. unfold connection_execute. apply keeps_bind; [run_parts|].
  intros self. destruct (_connection self); [|run_parts].
  apply keeps_call. apply Hp.
Qed.

Lemma total_describe_tables names acc : total (describe_tables w names acc).
Proof.
  revert acc. induction names as [|nm names IH]; intros acc; simpl.
  - run_parts.
  - apply total_bind; [apply total_connection_execute|]. intros. apply IH.
Qed.

Lemma emits_describe_tables names acc :
  emits is_db_execute (describe_tables w names acc).
Proof.
  revert acc. induction names as [|nm names IH]; intros acc; simpl.
  - run_parts.
  - apply emits_bind; [by apply emits_connection_execute|].
    intros. apply IH.
Qed.

Lemma keeps_describe_tables {X} (proj : Sys → X) names acc :
  (∀ ev s, proj (logged [ev] s) = proj s) →
  keeps proj (describe_tables w names acc).
Proof.
  intros Hp. revert acc.
  induction names as [|nm names IH]; intros acc; simpl.
  - run_parts.
  - apply keeps_bind; [by apply keeps_connection_execute|].
    intros. apply IH.
Qed.

Lemma total_get_table_info : total (_get_table_info w).
Proof.
  unfold _get_table_info.
  apply total_bind; [apply total_connection_execute|].
  intros tables. destruct (df_column tables "name"); [|run_parts].
  apply total_describe_tables.
Qed.

Lemma emits_get_table_info : emits is_db_execute (_get_table_info w).
Proof.
  unfold _get_table_info.
  apply emits_bind; [by apply emits_connection_execute|].
  intros tables. destruct (df_column tables "name"); [|run_parts].
  apply emits_describe_tables.
Qed.

Lemma keeps_get_table_info {X} (proj : Sys → X) :
  (∀ ev s, proj (logged [ev] s) = proj s) →
  keeps proj (_get_table_info w).
Proof.
  intros Hp. unfold _get_table_info.
  apply keeps_bind; [by apply keeps_connection_execute|].
  intros tables. destruct (df_column tables "name"); [|run_parts].
  by apply keeps_describe_tables.
Qed.

End ManagerFacts.

Section SchemaFacts.
Context (w : World).
Import DuckDBGDriveManager.

(** What the schema loop leaves in the dictionary when it completes. *)
Lemma describe_tables_inv names : ∀ acc s info s' c,
  _connection (db_manager s) = Some c →
  describe_tables w names acc s = Some (Ok info, s') →
  (∀ k, k ∈ info.*1 ↔ k ∈ acc.*1 ∨ k ∈ names)
  ∧ (NoDup acc.*1 → NoDup info.*1)
  ∧ (∀ k, k ∈ names →
       ∃ df, db_execute w c ("DESCRIBE " +:+ str_cell w k) = Ok df
             ∧ dict_get k info = Some df)
  ∧ (∀ k, k ∉ names → dict_get k info = dict_get k acc)
  ∧ s' = logged (describe_events w names) s.
Proof.
  induction names as [|nm names IH]; intros acc s info s' c Hc Hrun.
  - injection Hrun as <- <-.
    repeat split; try done.
    + by left.
    + intros [?|H]; [done|]. by apply elem_of_nil in H.
    + intros k H. by apply elem_of_nil in H.
    + by rewrite logged_nil.
  - simpl in Hrun.
    apply bind_inv in Hrun as [(cols & s1 & H1 & H2)|(e & _ & ?)];
      [|done].
    apply connection_execute_inv in H1 as (c' & Hc' & Hq & ->).
    assert (c' = c) as -> by congruence.
    apply (IH _ _ _ _ c) in H2 as (Hkeys & Hnodup & Hdesc & Hrest & ->);
      [|done].
    split; [|split; [|split; [|split]]].
    + intros k. rewrite Hkeys, dict_set_keys, elem_of_cons. tauto.
    + intros Hacc. apply Hnodup. by apply dict_set_NoDup.
    + intros k Hk. apply elem_of_cons in Hk as [->|Hk]; [|by apply Hdesc].
      destruct (decide (nm ∈ names)) as [Hin|Hout]; [by apply Hdesc|].
      exists cols. split; [done|].
      rewrite (Hrest _ Hout). apply dict_get_set_eq.
    + intros k Hk. rewrite elem_of_cons in Hk.
      rewrite Hrest by tauto. apply dict_get_set_ne.
      intros ->. tauto.
    + by rewrite logged_logged.
Qed.

(** What [_get_table_info] returns when it completes: one entry for
    each name that [SHOW TABLES] lists, holding what the engine answers
    to [DESCRIBE] of that name. *)
Lemma get_table_info_inv s info s' :
  _get_table_info w s = Some (Ok info, s') →
  ∃ c tables names,
    _connection (db_manager s) = Some c
    ∧ db_execute w c "SHOW TABLES" = Ok tables
    ∧ df_column tables "name" = Ok names
    ∧ NoDup info.*1
    ∧ (∀ k, k ∈ info.*1 ↔ k ∈ names)
    ∧ (∀ k, k ∈ names →
         ∃ df, db_execute w c ("DESCRIBE " +:+ str_cell w k) = Ok df
               ∧ dict_get k info = Some df)
    ∧ s' = logged (EvDbExecute "SHOW TABLES" :: describe_events w names) s.
Proof.
  unfold _get_table_info. intros Hrun.
  apply bind_inv in Hrun as [(tables & s1 & H1 & H2)|(e & _ & ?)]; [|done].
  apply connection_execute_inv in H1 as (c & Hc & Hq & ->).
  destruct (df_column tables "name") as [names|e] eqn:Hcol; [|done].
  apply (describe_tables_inv _ _ _ _ _ c) in H2
    as (Hkeys & Hnodup & Hdesc & _ & ->); [|done].
  exists c, tables, names. repeat split; try done.
  - apply Hnodup. constructor.
  - intros Hk. apply Hkeys in Hk as [Hk|Hk]; [|done].
    by apply elem_of_nil in Hk.
  - intros Hk. apply Hkeys. by right.
  - by rewrite logged_logged.
Qed.

End SchemaFacts.

Section DownloadFacts.
Context (w : World) (req : MediaRequest) (path : string).
Import DuckDBGDriveManager.

Lemma emits_download_loop fuel : ∀ k,
  emits (about_file (req_file_id req)) (download_loop w fuel req path k).
Proof.
  induction fuel as [|fuel IH]; intros k; simpl.
  - by intros s r s' ?.
  - apply emits_bind; [by apply emits_call|].
    intros [data fin]. apply emits_bind; [run_parts|].
    intros _. destruct fin; [run_parts|apply IH].
Qed.

Lemma keeps_download_loop {X} (proj : Sys → X) fuel :
  (∀ ev s, proj (logged [ev] s) = proj s) →
  (∀ f s, proj (on_fs f s) = proj s) →
  ∀ k, keeps proj (download_loop w fuel req path k).
Proof.
  intros Hlog Hfs.
  induction fuel as [|fuel IH]; intros k; simpl.
  - by intros s r s' ?.
  - apply keeps_bind; [apply keeps_call; apply Hlog|].
    intros [data fin]. apply keeps_bind; [apply keeps_modify; apply Hfs|].
    intros _. destruct fin; [run_parts|apply IH].
Qed.

(** With enough fuel for a loop that ends, the loop gives a result. *)
Lemma download_loop_halts fuel : ∀ k n s,
  (n ≤ fuel)%nat →
  (∃ j, (j < n)%nat
        ∧ chunk_final (next_chunk w req chunksize (k + j)) = true) →
  is_Some (download_loop w fuel req path k s).
Proof.
  induction fuel as [|fuel IH]; intros k n s Hn (j & Hj & Hfinal).
  - lia.
  - simpl. rewrite bind_call.
    destruct (next_chunk w req chunksize k) as [[data fin]|e] eqn:Hk;
      [|by eexists].
    rewrite bind_set_fs. destruct fin; [by eexists|].
    destruct j as [|j].
    + rewrite Nat.add_0_r, Hk in Hfinal. discriminate.
    + apply (IH (S k) (pred n)); [lia|].
      exists j. split; [lia|]. by rewrite Nat.add_succ_r in Hfinal.
Qed.

(** A loop that completes was ended by a chunk that reported [done],
    after chunks that did not. *)
Lemma download_loop_inv fuel : ∀ k s s',
  download_loop w fuel req path k s = Some (Ok tt, s') →
  ∃ n data,
    next_chunk w req chunksize (k + n) = Ok (data, true)
    ∧ ∀ j, (j < n)%nat →
           chunk_final (next_chunk w req chunksize (k + j)) = false.
Proof.
  induction fuel as [|fuel IH]; intros k s s' Hrun; [done|].
  simpl in Hrun. rewrite bind_call in Hrun.
  destruct (next_chunk w req chunksize k) as [[data fin]|e] eqn:Hk;
    [|done].
  rewrite bind_set_fs in Hrun. destruct fin.
  - exists O, data. rewrite Nat.add_0_r. split; [done|]. lia.
  - apply IH in Hrun as (n & data' & Hlast & Hbefore).
    exists (S n), data'. rewrite Nat.add_succ_r. split; [done|].
    intros [|j] Hj.
    + by rewrite Nat.add_0_r, Hk.
    + rewrite Nat.add_succ_r. apply Hbefore. lia.
Qed.

(** The file holds the chunks in the order received. *)
Lemma download_loop_content ds : ∀ k fuel s final old,
  (∀ j d, ds !! j = Some d →
          next_chunk w req chunksize (k + j) = Ok (d, false)) →
  next_chunk w req chunksize (k + length ds) = Ok (final, true) →
  (length ds < fuel)%nat →
  fs s !! path = Some (File old) →
  ∃ s',
    download_loop w fuel req path k s = Some (Ok tt, s')
    ∧ fs s' !! path
      = Some (File (old +:+ foldr String.append final ds)).
Proof.
  induction ds as [|d ds IH]; intros k fuel s final old Hds Hlast Hfuel Hfile.
  - destruct fuel as [|fuel]; [simpl in Hfuel; lia|].
    simpl in Hlast. rewrite Nat.add_0_r in Hlast.
    simpl. rewrite bind_call, Hlast, bind_set_fs.
    eexists. split; [reflexivity|]. tidy.
    unfold file_append. rewrite Hfile. apply lookup_insert_eq.
  - destruct fuel as [|fuel]; [simpl in Hfuel; lia|].
    assert (Hk : next_chunk w req chunksize k = Ok (d, false)).
    { rewrite <- (Nat.add_0_r k). by apply Hds. }
    simpl. rewrite bind_call, Hk, bind_set_fs.
    destruct (IH (S k) fuel
                (on_fs (file_append path d)
                   (logged [EvNextChunk (req_file_id req) chunksize k] s))
                final (old +:+ d)) as (s' & Hrun & Hcontent).
    + intros j d' Hj.
      replace (S k + j)%nat with (k + S j)%nat by lia. by apply Hds.
    + replace (S k + length ds)%nat with (k + length (d :: ds))%nat
        by (simpl; lia).
      done.
    + simpl in Hfuel. lia.
    + tidy. unfold file_append. rewrite Hfile. apply lookup_insert_eq.
    + exists s'. split; [done|]. by rewrite Hcontent, append_assoc.
Qed.

End DownloadFacts.

(** ** The two parts of [initialize_connection] *)

Section PhaseFacts.
Context (w : World).
Import DuckDBGDriveManager Steps.

Lemma written_file (p text : string) (disk : gmap string node) :
  file_append p text (<[p := File EmptyString]> disk) !! p
  = Some (File text).
Proof.
  unfold file_append. rewrite lookup_insert_eq. apply lookup_insert_eq.
Qed.

Lemma locate_database_run c s resp :
  listing_answers w (db_manager s) c resp →
  ∃ s1,
    locate_database w c s
      = Some (Ok (the_service (db_manager s), default [] (resp_files resp)),
              s1)
    ∧ trace s1 = trace s ++ listing_events (db_manager s) c
    ∧ db_manager s1 = db_manager s
    ∧ state s1 = state s.
Proof.
  intros (H1 & text & H2 & H3 & H4 & H5).
  unfold locate_database. rewrite bind_gets.
  unfold open_for_write. rewrite bind_assoc, bind_call.
  fold (creds_path (db_manager s)). rewrite H1, bind_set_fs.
  rewrite bind_call, H2, bind_set_fs, bind_gets. tidy.
  rewrite written_file, bind_call, H3, bind_call, H4, bind_call.
  fold (the_service (db_manager s)). rewrite H5.
  eexists. split; [reflexivity|]. tidy.
  split; [|done]. by rewrite <- !app_assoc.
Qed.

Lemma locate_database_inv c s svc files s1 :
  locate_database w c s = Some (Ok (svc, files), s1) →
  ∃ resp,
    listing_answers w (db_manager s) c resp
    ∧ svc = the_service (db_manager s)
    ∧ files = default [] (resp_files resp).
Proof.
  unfold locate_database. rewrite bind_gets.
  unfold open_for_write. rewrite bind_assoc, bind_call.
  fold (creds_path (db_manager s)).
  destruct (open_write w _) as [[]|e1] eqn:H1; [|done].
  rewrite bind_set_fs, bind_call.
  destruct (json_dump w c) as [text|e2] eqn:H2; [|done].
  rewrite bind_set_fs, bind_gets. tidy.
  rewrite written_file, bind_call.
  destruct (from_service_account_file w _ _) as [[]|e3] eqn:H3; [|done].
  rewrite bind_call.
  destruct (build w _ _ _) as [[]|e4] eqn:H4; [|done].
  rewrite bind_call. fold (the_service (db_manager s)).
  destruct (files_list w _ _ _ _) as [resp|e5] eqn:H5; [|done].
  intros [= <- <- <-].
  exists resp. split; [|done].
  split; [done|]. by exists text.
Qed.

Lemma total_open_for_write p : total (open_for_write w p).
Proof. unfold open_for_write. run_parts. Qed.

Lemma total_locate_database c : total (locate_database w c).
Proof.
  unfold locate_database. run_parts.
Qed.

Lemma keeps_open_for_write {X} (proj : Sys → X) p :
  (∀ ev s, proj (logged [ev] s) = proj s) →
  (∀ f s, proj (on_fs f s) = proj s) →
  keeps proj (open_for_write w p).
Proof.
  intros Hlog Hfs. unfold open_for_write.
  apply keeps_bind; [apply keeps_call; apply Hlog|].
  intros _. apply keeps_modify. apply Hfs.
Qed.

Lemma emits_open_for_write (P : event → Prop) p :
  P (EvOpenWrite p) → emits P (open_for_write w p).
Proof. intros HP. unfold open_for_write. run_parts. done. Qed.

End PhaseFacts.

Lemma emits_weaken {A} (P Q : event → Prop) (m : M A) :
  (∀ ev, P ev → Q ev) → emits P m → emits Q m.
Proof.
  intros HPQ Hm s r s' Hrun.
  apply Hm in Hrun as (evs & E & HP). exists evs. split; [done|].
  by apply (Forall_impl P).
Qed.

(** [run_parts], knowing the manager's methods. *)
Ltac run_manager :=
  repeat first
    [ apply total_connection_execute
    | apply total_get_table_info
    | apply total_open_for_write
    | apply keeps_connection_execute; reflexivity
    | apply keeps_get_table_info; reflexivity
    | apply keeps_open_for_write; reflexivity
    | apply keeps_download_loop; reflexivity
    | apply emits_download_loop
    | apply emits_connection_execute; exact I
    | apply emits_open_for_write; exact I
    | apply (emits_weaken is_db_execute);
        [by intros []|apply emits_get_table_info]
    | run_step ].

(** Applies to a run [H : m s = Some _] a property of [m] that
    [run_manager] can establish. *)
Ltac use_emits H P :=
  match type of H with
  | ?m ?s = Some _ =>
      let Hm := fresh "Hm" in
      assert (Hm : emits P m) by (run_manager; done);
      apply Hm in H; clear Hm
  end.

Ltac use_keeps H proj :=
  match type of H with
  | ?m ?s = Some _ =>
      let Hm := fresh "Hm" in
      assert (Hm : keeps proj m) by (run_manager; done);
      apply Hm in H; clear Hm
  end.

Section FetchFacts.
Context (w : World).
Import DuckDBGDriveManager Steps.

(** The second part asks for [first] and for no other remote file. *)
Lemma fetch_and_open_events fuel svc first s r s' :
  fetch_and_open w fuel svc first s = Some (r, s') →
  ∃ rest,
    trace s' = trace s ++ EvGetMedia (file_id first) :: rest
    ∧ Forall (about_file (file_id first)) rest.
Proof.
  unfold fetch_and_open. rewrite bind_gets, bind_call.
  destruct (get_media w svc (file_id first)) as [[]|e].
  - intros Hrun. cbv beta iota in Hrun.
    use_emits Hrun (about_file (file_id first)).
    destruct Hrun as (rest & E & Hrest).
    exists rest. split; [|done].
    rewrite E. tidy. by rewrite <- app_assoc.
  - intros [= <- <-]. exists []. split; [done|constructor].
Qed.

Lemma fetch_and_open_keeps_state fuel svc first :
  keeps state (fetch_and_open w fuel svc first).
Proof. unfold fetch_and_open. run_manager. Qed.

(** With fuel for a download that ends, the second part gives a
    result. *)
Lemma fetch_and_open_total fuel n svc first s :
  halts_within w (mkRequest svc (file_id first)) n →
  (n ≤ fuel)%nat →
  is_Some (fetch_and_open w fuel svc first s).
Proof.
  intros Hhalt Hfuel.
  assert (Hloop : ∀ path,
            total (download_loop w fuel (mkRequest svc (file_id first))
                     path O)).
  { intros path s0. apply (download_loop_halts _ _ _ _ _ n); [done|].
    destruct Hhalt as (k & Hk & Hfinal). by exists k. }
  revert s. change (total (fetch_and_open w fuel svc first)).
  unfold fetch_and_open.
  repeat first [apply Hloop | progress run_manager].
Qed.

End FetchFacts.

Ltac tidy_in H :=
  cbn [state db_manager fs trace ticks logged on_fs on_manager on_state
       next_tick _temp_dir _db_path _connection FOLDER_ID DB_NAME table_info
       with_connection with_table_info] in H.

Ltac use_total H :=
  match goal with
  | |- context [?m ?s = Some _] =>
      assert (H : total m) by (run_manager; done)
  end.

Section FetchInversion.
Context (w : World).
Import DuckDBGDriveManager Steps.

(** What a completed second part tells about the answers it got, and
    what it leaves in the manager. *)
Lemma fetch_and_open_inv fuel first s b s' :
  fetch_and_open w fuel (the_service (db_manager s)) first s
    = Some (Ok b, s') →
  b = true
  ∧ opening_answers w (db_manager s) first
  ∧ ∃ names info,
      schema_answers w (the_connection (db_manager s)) names
      ∧ snapshot_of w (the_connection (db_manager s)) names info
      ∧ db_manager s'
        = with_table_info (Some info)
            (with_connection (Some (the_connection (db_manager s)))
               (db_manager s))
      ∧ ∃ before,
          trace s' = trace s ++ before
                       ++ EvDbExecute "SHOW TABLES" :: describe_events w names.
Proof.
  unfold fetch_and_open. rewrite bind_gets, bind_call.
  destruct (get_media w _ _) as [[]|e0] eqn:Hget; [|done].
  unfold open_for_write. rewrite bind_assoc, bind_call.
  destruct (open_write w _) as [[]|e1] eqn:Hopen; [|done].
  rewrite bind_set_fs. intros Hrun.
  apply bind_inv in Hrun as [([] & s1 & Hloop & Hrun)|(e & _ & ?)]; [|done].
  pose proof Hloop as Hmgr. use_keeps Hmgr db_manager. tidy_in Hmgr.
  pose proof Hloop as Htrace.
  use_emits Htrace (about_file (file_id first)).
  destruct Htrace as (chunks & Htrace & _). tidy_in Htrace.
  apply download_loop_inv in Hloop as (n & data & Hlast & Hbefore).
  rewrite bind_gets, bind_call in Hrun.
  destruct (duckdb_connect w _ _ _) as [[]|e2] eqn:Hconn; [|done].
  rewrite bind_set_manager in Hrun.
  apply bind_inv in Hrun as [(df1 & s2 & Hset1 & Hrun)|(e & _ & ?)]; [|done].
  apply connection_execute_inv in Hset1 as (c1 & Hc1 & Hset1 & ->).
  tidy_in Hc1. injection Hc1 as <-.
  apply bind_inv in Hrun as [(df2 & s3 & Hset2 & Hrun)|(e & _ & ?)]; [|done].
  apply connection_execute_inv in Hset2 as (c2 & Hc2 & Hset2 & ->).
  tidy_in Hc2. injection Hc2 as <-.
  apply bind_inv in Hrun as [(info & s4 & Hinfo & Hrun)|(e & _ & ?)];
    [|done].
  apply get_table_info_inv in Hinfo
    as (c & tables & names & Hc & Hshow & Hcol & Hnd & Hkeys & Hdesc & ->).
  tidy_in Hc. injection Hc as <-.
  rewrite bind_set_manager in Hrun. injection Hrun as <- <-.
  split; [done|]. split.
  - split; [done|]. split; [done|]. split.
    { exists n, data. split; [exact Hlast|]. intros j Hj. by apply Hbefore. }
    split; [by eexists|].
    unfold the_connection. by rewrite Hset1, Hset2.
  - exists names, info. split; [|split; [|split]].
    + split; [by exists tables|].
      intros k Hk. destruct (Hdesc k Hk) as (df & Hdf & _).
      unfold the_connection. by rewrite Hdf.
    + done.
    + tidy. by rewrite Hmgr.
    + exists ([EvGetMedia (file_id first);
               EvOpenWrite (_db_path (db_manager s))]
              ++ chunks
              ++ [EvDuckConnect (_db_path (db_manager s)) true;
                  EvDbExecute "SET memory_limit='4GB'";
                  EvDbExecute "SET threads TO 4"]).
      tidy. rewrite Htrace. by rewrite <- !app_assoc.
Qed.

(** After a completed download the file holds the chunks of [first],
    in order, whatever the later steps do. *)
Lemma fetch_and_open_content fuel first s ds final :
  get_media w (the_service (db_manager s)) (file_id first) = Ok tt →
  open_write w (_db_path (db_manager s)) = Ok tt →
  (∀ j d, ds !! j = Some d →
     next_chunk w (the_request (db_manager s) first) chunksize j
     = Ok (d, false)) →
  next_chunk w (the_request (db_manager s) first) chunksize (length ds)
    = Ok (final, true) →
  (length ds < fuel)%nat →
  ∃ r s',
    fetch_and_open w fuel (the_service (db_manager s)) first s
      = Some (r, s')
    ∧ fs s' !! _db_path (db_manager s)
      = Some (File (foldr String.append final ds)).
Proof.
  intros Hget Hopen Hds Hlast Hfuel.
  unfold fetch_and_open. rewrite bind_gets, bind_call, Hget.
  unfold open_for_write. rewrite bind_assoc, bind_call, Hopen, bind_set_fs.
  destruct (download_loop_content w (the_request (db_manager s) first)
              (_db_path (db_manager s)) ds O fuel
              (on_fs <[_db_path (db_manager s):=File EmptyString]>
                 (logged [EvOpenWrite (_db_path (db_manager s))]
                    (logged [EvGetMedia (file_id first)] s)))
              final EmptyString) as (s1 & Hloop & Hfile); try done.
  { tidy. apply lookup_insert_eq. }
  unfold the_request in Hloop.
  erewrite bind_ok; [|exact Hloop].
  use_total Hrest. destruct (Hrest s1) as [[r s'] Hrun].
  exists r, s'. split; [done|].
  use_keeps Hrun fs. by rewrite Hrun.
Qed.

End FetchInversion.

Section ConnectFacts.
Context (w : World).
Import DuckDBGDriveManager Steps.

Lemma keeps_locate_database {X} (proj : Sys → X) c :
  (∀ ev s, proj (logged [ev] s) = proj s) →
  (∀ f s, proj (on_fs f s) = proj s) →
  keeps proj (locate_database w c).
Proof.
  intros Hlog Hfs. unfold locate_database.
  repeat first
    [ apply keeps_open_for_write; [apply Hlog|apply Hfs]
    | apply keeps_call; apply Hlog
    | apply keeps_modify; apply Hfs
    | run_step ].
Qed.

(** Once the listing is answered, [connect_steps] goes on from the
    state [s1] according to the list of matches. *)
Lemma connect_steps_after_listing fuel c s resp :
  listing_answers w (db_manager s) c resp →
  ∃ s1,
    trace s1 = trace s ++ listing_events (db_manager s) c
    ∧ db_manager s1 = db_manager s
    ∧ state s1 = state s
    ∧ connect_steps w fuel c s
      = match default [] (resp_files resp) with
        | [] => Some (Raise (not_found (db_manager s)), s1)
        | first :: _ =>
            fetch_and_open w fuel (the_service (db_manager s)) first s1
        end.
Proof.
  intros Hlist.
  destruct (locate_database_run w c s resp Hlist)
    as (s1 & Hrun & Htrace & Hmgr & Hstate).
  exists s1. repeat split; try done.
  unfold connect_steps. erewrite bind_ok; [|exact Hrun].
  destruct (default [] (resp_files resp)); [|done].
  rewrite bind_gets. by rewrite Hmgr.
Qed.

(** What a completed [try] block tells. *)
Lemma connect_steps_inv fuel c s b s' :
  connect_steps w fuel c s = Some (Ok b, s') →
  b = true
  ∧ ∃ resp first rest names info,
      listing_answers w (db_manager s) c resp
      ∧ resp_files resp = Some (first :: rest)
      ∧ opening_answers w (db_manager s) first
      ∧ schema_answers w (the_connection (db_manager s)) names
      ∧ snapshot_of w (the_connection (db_manager s)) names info
      ∧ db_manager s'
        = with_table_info (Some info)
            (with_connection (Some (the_connection (db_manager s)))
               (db_manager s))
      ∧ ∃ before,
          trace s' = trace s ++ before
                       ++ EvDbExecute "SHOW TABLES" :: describe_events w names.
Proof.
  intros Hrun. pose proof Hrun as Hsteps. unfold connect_steps in Hrun.
  apply bind_inv in Hrun as [([svc files] & s0 & Hloc & _)|(e & _ & ?)];
    [|done].
  apply locate_database_inv in Hloc as (resp & Hlist & -> & ->).
  destruct (connect_steps_after_listing fuel c s resp Hlist)
    as (s1 & Htrace & Hmgr & _ & Heq).
  rewrite Heq in Hsteps.
  destruct (resp_files resp) as [[|first rest]|] eqn:Hfiles; try done.
  simpl in Hsteps. rewrite <- Hmgr in Hsteps.
  apply fetch_and_open_inv in Hsteps
    as (-> & Hopen & names & info & Hschema & Hsnap & Hafter & before & Hev).
  rewrite Hmgr in *.
  split; [done|].
  exists resp, first, rest, names, info.
  do 6 (split; [done|]).
  exists (listing_events (db_manager s) c ++ before).
  by rewrite Hev, Htrace, <- !app_assoc.
Qed.

(** With fuel for a download that ends, the [try] block gives a
    result. *)
Lemma connect_steps_total fuel n c s :
  (∀ req, halts_within w req n) →
  (n ≤ fuel)%nat →
  is_Some (connect_steps w fuel c s).
Proof.
  intros Hhalt Hfuel. unfold connect_steps, mbind, M_bind.
  destruct (total_locate_database w c s) as [[[[svc files]|e] s1] ->];
    [|done].
  destruct files as [|first rest]; [done|].
  eapply fetch_and_open_total; [apply Hhalt|exact Hfuel].
Qed.

End ConnectFacts.

(** ** Connecting *)

Section ConnectClaims.
Context (w : World).
Import DuckDBGDriveManager Steps.

(** C5.  Suppose the steps before the lookup succeed and the listing
    answers [resp].  If [resp] holds no file (an empty list, or no
    [files] key), the [try] block raises [FileNotFoundError] "Could not
    find ... in the specified folder", which [initialize_connection]
    reports as [False] after logging it; nothing is requested for
    download.  If [resp] holds one or more files, the first of them is
    the file requested: the next call is [get_media] for its id, no
    later call concerns another remote file, and when its chunks arrive
    the database file on disk holds exactly those chunks in order. *)
Theorem lookup_result_decides (c : json) (s : Sys) (fuel : nat)
    (resp : ListResponse) :
  listing_answers w (db_manager s) c resp →
  (default [] (resp_files resp) = [] →
     ∃ s1 s',
       connect_steps w fuel c s = Some (Raise (not_found (db_manager s)), s1)
       ∧ initialize_connection w fuel c s = Some (Ok false, s')
       ∧ new_events s s'
         = listing_events (db_manager s) c
             ++ [EvPrint ("Connection error: Could not find "
                            +:+ DB_NAME (db_manager s)
                            +:+ " in the specified folder")])
  ∧ (∀ first rest, default [] (resp_files resp) = first :: rest →
       (∀ r s', initialize_connection w fuel c s = Some (r, s') →
          ∃ later,
            new_events s s'
              = listing_events (db_manager s) c
                  ++ EvGetMedia (file_id first) :: later
            ∧ Forall (about_file (file_id first)) later)
       ∧ (∀ ds final,
            get_media w (the_service (db_manager s)) (file_id first) = Ok tt →
            open_write w (_db_path (db_manager s)) = Ok tt →
            (∀ j d, ds !! j = Some d →
               next_chunk w (the_request (db_manager s) first) chunksize j
               = Ok (d, false)) →
            next_chunk w (the_request (db_manager s) first) chunksize
              (length ds) = Ok (final, true) →
            (length ds < fuel)%nat →
            ∃ b s',
              initialize_connection w fuel c s = Some (Ok b, s')
              ∧ fs s' !! _db_path (db_manager s)
                = Some (File (foldr String.append final ds)))).
Proof.
  intros Hlist.
  destruct (connect_steps_after_listing w fuel c s resp Hlist)
    as (s1 & Htrace & Hmgr & Hstate & Heq).
  split.
  - intros Hnone. rewrite Hnone in Heq.
    exists s1. eexists. split; [done|]. split.
    + unfold initialize_connection.
      erewrite try_except_raise; [reflexivity|done].
    + apply new_events_app. tidy. by rewrite Htrace, <- app_assoc.
  - intros first rest Hfiles. rewrite Hfiles in Heq. split.
    + intros r s'. unfold initialize_connection, try_except.
      rewrite Heq.
      destruct (fetch_and_open w fuel _ first s1) as [[[b|e] s2]|] eqn:Hrun;
        [| |done].
      * intros [= <- <-].
        apply fetch_and_open_events in Hrun as (later & Hlater & Hall).
        exists later. split; [|done].
        apply new_events_app. by rewrite Hlater, Htrace, <- app_assoc.
      * intros [= <- <-].
        apply fetch_and_open_events in Hrun as (later & Hlater & Hall).
        exists (later ++ [EvPrint ("Connection error: " +:+ exn_str e)]).
        split.
        -- apply new_events_app. tidy.
           by rewrite Hlater, Htrace, <- !app_assoc.
        -- apply Forall_app. split; [done|]. by repeat constructor.
    + intros ds final Hget Hopen Hds Hlast Hfuel.
      rewrite <- Hmgr in Hget, Hopen, Hds, Hlast.
      destruct (fetch_and_open_content w fuel first s1 ds final
                  Hget Hopen Hds Hlast Hfuel) as (r & s2 & Hrun & Hfile).
      rewrite Hmgr in Hrun, Hfile.
      unfold initialize_connection, try_except. rewrite Heq, Hrun.
      destruct r as [b|e]; eexists; eexists; (split; [reflexivity|done]).
Qed.

(** C6.  With fuel for a download loop that ends,
    [initialize_connection] always returns a boolean and never raises.
    It returns [True] only if the [try] block ran to its end, and then
    every step completed: credential persistence, authentication,
    client construction, a lookup with at least one match, the
    download, the database open, both settings and the schema
    introspection.  It returns [False] exactly when some step raised an
    exception [e]; then that exception was caught and the last thing done
    was to log "Connection error: " followed by [str(e)]. *)
Theorem initialize_connection_returns_bool (c : json) (s : Sys)
    (n fuel : nat) :
  (∀ req, halts_within w req n) →
  (n ≤ fuel)%nat →
  ∃ b s',
    initialize_connection w fuel c s = Some (Ok b, s')
    ∧ (b = true →
         connect_steps w fuel c s = Some (Ok true, s')
         ∧ every_step_completes w (db_manager s) c)
    ∧ (b = false →
         ∃ e s1,
           connect_steps w fuel c s = Some (Raise e, s1)
           ∧ s' = logged [EvPrint ("Connection error: " +:+ exn_str e)] s1).
Proof.
  intros Hhalt Hfuel.
  destruct (connect_steps_total w fuel n c s Hhalt Hfuel)
    as [[[b|e] s1] Hsteps].
  - pose proof Hsteps as Hinv.
    apply connect_steps_inv in Hinv
      as (-> & resp & first & rest & names & info
          & Hlist & Hfiles & Hopen & Hschema & _).
    exists true, s1. split; [|split; [|done]].
    + unfold initialize_connection. by erewrite try_except_ok.
    + intros _. split; [done|]. by exists resp, first, rest, names.
  - exists false. eexists. split; [|split; [done|]].
    + unfold initialize_connection.
      erewrite try_except_raise; [reflexivity|done].
    + intros _. by exists e, s1.
Qed.

End ConnectClaims.

(** [df_column] selects the column in that sense. *)
Lemma index_of_Some name cols : ∀ i,
  index_of name cols = Some i →
  cols !! i = Some name
  ∧ ∀ j, (j < i)%nat → cols !! j ≠ Some name.
Proof.
  induction cols as [|c cols IH]; intros i; simpl; [done|].
  destruct (String.eqb_spec c name) as [->|Hne].
  - intros [= <-]. split; [done|]. intros j Hj. lia.
  - destruct (index_of name cols) as [i'|]; [|done].
    intros [= <-]. destruct (IH i' eq_refl) as [Hat Hbefore].
    split; [done|]. intros [|j] Hj; simpl.
    + intros [= ?]. done.
    + apply Hbefore. lia.
Qed.

Lemma df_column_cells df name cells :
  df_column df name = Ok cells → column_cells df name cells.
Proof.
  unfold df_column.
  destruct (index_of name (columns df)) as [i|] eqn:Hi; [|done].
  intros [= <-]. apply index_of_Some in Hi as [Hat Hbefore].
  exists i. split; [done|]. split; [done|].
  split; [apply length_map|].
  intros k r Hr.
  change (map (λ r0, nth i r0 CNone) (rows df))
    with ((λ r0, nth i r0 CNone) <$> rows df).
  rewrite list_lookup_fmap, Hr. simpl. by rewrite nth_lookup.
Qed.

(** A frame has one column of a given label, in that sense. *)
Lemma column_cells_functional df name cells1 cells2 :
  column_cells df name cells1 → column_cells df name cells2 →
  cells1 = cells2.
Proof.
  intros (i1 & Hat1 & Hfirst1 & Hlen1 & Hcells1)
         (i2 & Hat2 & Hfirst2 & Hlen2 & Hcells2).
  assert (i1 = i2) as ->.
  { destruct (lt_eq_lt_dec i1 i2) as [[Hlt|Heq]|Hgt]; [|done|].
    - by destruct (Hfirst2 i1 Hlt).
    - by destruct (Hfirst1 i2 Hgt). }
  apply list_eq. intros k.
  destruct (rows df !! k) as [r|] eqn:Hr.
  - by rewrite (Hcells1 k r Hr), (Hcells2 k r Hr).
  - apply lookup_ge_None in Hr.
    rewrite !(proj2 (lookup_ge_None _ _)); [done|lia|lia].
Qed.

Section SnapshotClaims.
Context (w : World).
Import Steps.

Lemma keeps_manager_execute_query {X} (proj : Sys → X) q :
  (∀ ev s, proj (logged [ev] s) = proj s) →
  keeps proj (DuckDBGDriveManager.execute_query w q).
Proof.
  intros Hlog. unfold DuckDBGDriveManager.execute_query.
  apply keeps_try_except; [|run_parts].
  apply keeps_bind; [run_parts|].
  intros self. destruct (_connection self); [|run_parts].
  by apply keeps_connection_execute.
Qed.

Lemma execute_query_keeps_snapshots : keeps snapshots (execute_query w).
Proof.
  unfold execute_query. apply keeps_bind; [run_parts|].
  intros st. destruct (negb (connection_status st)); [run_parts|].
  unfold datetime_now, tick.
  repeat first
    [ apply keeps_manager_execute_query; reflexivity | run_step ].
Qed.

Lemma on_file_upload_keeps_snapshots file :
  keeps snapshots (on_file_upload w file).
Proof. unfold on_file_upload. run_parts. Qed.

Lemma download_results_keeps_snapshots :
  keeps snapshots (download_results w).
Proof.
  unfold download_results. apply keeps_bind; [run_parts|].
  intros st. destruct (results st); run_parts.
Qed.

(** C8.  After a successful connection the manager holds a schema
    snapshot and the page holds the same one.  The tables present are
    those of the engine's answer to [SHOW TABLES]: the cells of its
    [name] column.  The snapshot has exactly one entry for each of them,
    and the entry of a table is what the engine answers when asked to
    describe it, that is, the table's columns.  The snapshot is taken
    once, as the last calls of connecting (one listing, then one
    description per listed table), and the other handlers (running a
    query, uploading a file, exporting) leave both copies as they are. *)
Theorem schema_snapshot_matches_engine (fuel : nat) (s s1 : Sys) :
  truthy (credentials_content (state s)) = true →
  DuckDBGDriveManager.initialize_connection w fuel
      (credentials_content (state s)) s = Some (Ok true, s1) →
  (∃ tables names info s2,
     connect_database w fuel s = Some (Ok tt, s2)
     ∧ connection_status (state s2) = true
     ∧ _connection (db_manager s2) = Some (the_connection (db_manager s))
     ∧ table_info (db_manager s2) = Some info
     ∧ state_table_info (state s2) = Some info
     ∧ db_execute w (the_connection (db_manager s)) "SHOW TABLES" = Ok tables
     ∧ column_cells tables "name" names
     ∧ schema_answers w (the_connection (db_manager s)) names
     ∧ snapshot_of w (the_connection (db_manager s)) names info
     ∧ ∃ before,
         new_events s s1
         = before ++ EvDbExecute "SHOW TABLES" :: describe_events w names)
  ∧ keeps snapshots (execute_query w)
  ∧ (∀ file, keeps snapshots (on_file_upload w file))
  ∧ keeps snapshots (download_results w).
Proof.
  intros Hcreds Hinit.
  split; [|split; [apply execute_query_keeps_snapshots|
                   split; [apply on_file_upload_keeps_snapshots|
                           apply download_results_keeps_snapshots]]].
  assert (Hsteps : DuckDBGDriveManager.connect_steps w fuel
                     (credentials_content (state s)) s = Some (Ok true, s1)).
  { unfold DuckDBGDriveManager.initialize_connection, try_except in Hinit.
    destruct (DuckDBGDriveManager.connect_steps w fuel _ s)
      as [[[b|e] s0]|]; [|done|done].
    by injection Hinit as -> ->. }
  apply connect_steps_inv in Hsteps
    as (_ & resp & first & rest & names & info
        & _ & _ & _ & Hschema & Hsnap & Hmgr & before & Htrace).
  pose proof Hschema as [(tables & Hshow & Hcol) _].
  apply df_column_cells in Hcol.
  exists tables, names, info. eexists. split.
  { unfold connect_database. rewrite bind_gets, Hcreds.
    erewrite bind_ok; [|exact Hinit]. reflexivity. }
  tidy. rewrite Hmgr. cbn.
  do 8 (split; [done|]).
  exists before. by apply new_events_app.
Qed.

End SnapshotClaims.

(** ** The manager as [__init__] builds it *)

Lemma init_manager (w : World) (s : Sys) (m : Manager) (s' : Sys) :
  DuckDBGDriveManager.__init__ w s = Some (Ok m, s') →
  mkdtemp w (fs s) = Ok (_temp_dir m)
  ∧ _db_path m = path_join (_temp_dir m) "pricecatcher.duckdb"
  ∧ _connection m = None
  ∧ table_info m = None
  ∧ fs s' !! _temp_dir m = Some Dir.
Proof.
  unfold DuckDBGDriveManager.__init__. rewrite bind_gets, bind_call.
  destruct (mkdtemp w (fs s)) as [d|e]; [|done].
  rewrite bind_set_fs. intros [= <- <-]. tidy.
  repeat split. apply lookup_insert_eq.
Qed.

(** ** The claims at work in the demonstration world *)

Lemma cleanup_leaves_nothing_witness :
  ∃ s',
    DuckDBGDriveManager.cleanup Demo.connected = Some (Ok tt, s')
    ∧ _connection (db_manager s')
      = Some (mkConnection "/tmp/tmpq3x/pricecatcher.duckdb" true true)
    ∧ fs s' !! "/tmp/tmpq3x" = None
    ∧ fs s' !! "/tmp/tmpq3x/creds.json" = None
    ∧ fs s' !! "/tmp/tmpq3x/pricecatcher.duckdb" = None.
Proof.
  destruct (cleanup_leaves_nothing Demo.connected)
    as (s' & Hrun & Hclose & _ & Hgone & _ & Hfiles).
  { intros p _ _. exists Dir. reflexivity. }
  exists s'. split; [exact Hrun|]. split.
  { apply (Hclose (mkConnection "/tmp/tmpq3x/pricecatcher.duckdb" true false)).
    reflexivity. }
  split; [apply Hgone; reflexivity|].
  apply Hfiles. discriminate.
Defined.

Lemma lookup_result_decides_witness :
  (∃ s',
     DuckDBGDriveManager.initialize_connection Demo.no_match 3 Demo.key_json
       Demo.uploaded = Some (Ok false, s')
     ∧ Forall (λ ev, ∀ id, ev ≠ EvGetMedia id) (new_events Demo.uploaded s'))
  ∧ (∃ b s',
       DuckDBGDriveManager.initialize_connection Demo.two_matches 3
         Demo.key_json Demo.uploaded = Some (Ok b, s')
       ∧ fs s' !! "/tmp/tmpq3x/pricecatcher.duckdb" = Some (File "DUCKDB")).
Proof.
  split.
  - assert (Hlist : Steps.listing_answers Demo.no_match
                      (db_manager Demo.uploaded) Demo.key_json
                      (mkListResponse (Some []))).
    { split; [reflexivity|]. exists Demo.key_text. by repeat split. }
    destruct (proj1 (lookup_result_decides Demo.no_match Demo.key_json
                       Demo.uploaded 3 (mkListResponse (Some [])) Hlist)
                eq_refl)
      as (s1 & s' & _ & Hrun & Hev).
    exists s'. split; [exact Hrun|]. rewrite Hev.
    repeat (constructor; [discriminate|]). constructor.
  - assert (Hlist : Steps.listing_answers Demo.two_matches
                      (db_manager Demo.uploaded) Demo.key_json
                      (mkListResponse
                         (Some [Demo.first_match; Demo.second_match]))).
    { split; [reflexivity|]. exists Demo.key_text. by repeat split. }
    destruct (proj2 (lookup_result_decides Demo.two_matches Demo.key_json
                       Demo.uploaded 3
                       (mkListResponse
                          (Some [Demo.first_match; Demo.second_match]))
                       Hlist)
                Demo.first_match [Demo.second_match] eq_refl)
      as [_ Hcontent].
    apply (Hcontent ["DUCK"] "DB"); try reflexivity.
    + intros [|[|j]] d Hd; simpl in Hd; try discriminate.
      by injection Hd as <-.
    + simpl. lia.
Defined.

Lemma initialize_connection_returns_bool_witness :
  ∃ b s',
    DuckDBGDriveManager.initialize_connection Demo.two_matches 3 Demo.key_json
      Demo.uploaded = Some (Ok b, s').
Proof.
  destruct (initialize_connection_returns_bool Demo.two_matches Demo.key_json
              Demo.uploaded 2 3) as (b & s' & Hrun & _).
  - intros req. exists 1%nat. split; [lia|reflexivity].
  - lia.
  - by exists b, s'.
Defined.

Lemma schema_snapshot_matches_engine_witness :
  ∃ info s2,
    connect_database Demo.two_matches 3 Demo.uploaded = Some (Ok tt, s2)
    ∧ table_info (db_manager s2) = Some info
    ∧ state_table_info (state s2) = Some info
    ∧ NoDup info.*1
    ∧ (∀ k, k ∈ info.*1 ↔ k ∈ [CStr "items"; CStr "prices"])
    ∧ dict_get (CStr "items") info = Some Demo.items_columns
    ∧ dict_get (CStr "prices") info = Some Demo.prices_columns.
Proof.
  destruct (schema_snapshot_matches_engine Demo.two_matches 3 Demo.uploaded
              (Demo.after
                 (DuckDBGDriveManager.initialize_connection Demo.two_matches 3
                    Demo.key_json) Demo.uploaded))
    as [(tables & names & info & s2 & Hrun & _ & _ & Hmgr & Hpage
         & Hshow & Hcells & _ & (Hnodup & Hkeys & Hdesc) & _) _].
  - reflexivity.
  - vm_compute. reflexivity.
  - injection Hshow as <-.
    assert (Hnames : names = [CStr "items"; CStr "prices"]).
    { apply (column_cells_functional _ _ _ _ Hcells).
      exists O. split; [reflexivity|]. split; [intros j Hj; lia|].
      split; [reflexivity|].
      intros [|[|k]] r Hr; simpl in Hr; try discriminate;
        by injection Hr as <-. }
    rewrite Hnames in Hkeys, Hdesc.
    exists info, s2.
    split; [exact Hrun|]. split; [exact Hmgr|]. split; [exact Hpage|].
    split; [exact Hnodup|]. split; [exact Hkeys|]. split.
    + destruct (Hdesc (CStr "items")) as (df & Hdf & Hget); [by left|].
      injection Hdf as <-. exact Hget.
    + destruct (Hdesc (CStr "prices")) as (df & Hdf & Hget);
        [right; by left|].
      injection Hdf as <-. exact Hget.
Defined.

(** * Further properties *)

(** ** The query path and the connect handler *)

Section NeverRaise.
Context (w : World).

(** X2.  With fuel for a download loop that ends, the connect handler
    always returns normally too; every failure of connecting ends in a
    notification, not in an exception. *)
Theorem connect_database_returns (n fuel : nat) (s : Sys) :
  (∀ req, halts_within w req n) →
  (n ≤ fuel)%nat →
  ∃ s' kind msg,
    connect_database w fuel s = Some (Ok tt, s')
    ∧ last (trace s') = Some (EvNotify kind msg).
Proof.
  intros Hhalt Hfuel. unfold connect_database. rewrite bind_gets.
  destruct (truthy (credentials_content (state s))).
  - destruct (connect_steps_total w fuel n (credentials_content (state s)) s
                Hhalt Hfuel) as [[[b|e] s1] Hsteps].
    + erewrite bind_ok;
        [|unfold DuckDBGDriveManager.initialize_connection;
          erewrite try_except_ok; [reflexivity|exact Hsteps]].
      destruct b; eexists; eexists; eexists;
        (split; [reflexivity|]); tidy; apply last_snoc.
    + erewrite bind_ok;
        [|unfold DuckDBGDriveManager.initialize_connection;
          erewrite try_except_raise; [reflexivity|exact Hsteps]].
      eexists; eexists; eexists.
      split; [reflexivity|]. tidy. apply last_snoc.
  - eexists; eexists; eexists.
    split; [reflexivity|]. tidy. apply last_snoc.
Qed.

(** X3.  The manager's [execute_query] gives an outcome in every state,
    and the outcome is fixed by the connection and the engine.  With a
    connection object, the engine is asked exactly the given text: its
    result is returned as it is, and its error [e] comes out as an
    [Exception] whose text is "Query execution failed: " followed by
    [str(e)].  Without a connection object nothing is called and the
    exception is "Query execution failed: Database not connected". *)
Theorem manager_execute_query_wraps (q : string) (s : Sys) :
  ∃ r s',
    DuckDBGDriveManager.execute_query w q s = Some (r, s')
    ∧ ((∃ c df,
          _connection (db_manager s) = Some c
          ∧ db_execute w c q = Ok df
          ∧ r = Ok df
          ∧ new_events s s' = [EvDbExecute q])
       ∨ (∃ c e,
            _connection (db_manager s) = Some c
            ∧ db_execute w c q = Raise e
            ∧ r = Raise (mkExn "Exception"
                           ("Query execution failed: " +:+ exn_str e))
            ∧ new_events s s' = [EvDbExecute q])
       ∨ (_connection (db_manager s) = None
          ∧ r = Raise (mkExn "Exception"
                         "Query execution failed: Database not connected")
          ∧ s' = s)).
Proof.
  destruct (_connection (db_manager s)) as [c|] eqn:Hc.
  - destruct (db_execute w c q) as [df|e] eqn:Hq.
    + eexists. eexists. split; [by apply (manager_execute_query_ok w s c)|].
      left. exists c, df. do 3 (split; [done|]). solve_new_events.
    + eexists. eexists.
      split; [by apply (manager_execute_query_rejected w s c)|].
      right. left. exists c, e. do 3 (split; [done|]). solve_new_events.
  - eexists. eexists.
    split; [by apply manager_execute_query_no_connection|].
    right. right. by repeat split.
Qed.

(** X4.  With a connection in place, the execute-query handler makes
    exactly one database call, and it passes the text of [state.query]
    to the engine as it is, whether the engine then accepts it or not. *)
Theorem execute_query_forwards_verbatim (s : Sys) (c : connection) :
  connection_status (state s) = true →
  _connection (db_manager s) = Some c →
  ∃ s' rest,
    execute_query w s = Some (Ok tt, s')
    ∧ new_events s s' = EvNow :: EvDbExecute (query (state s)) :: rest
    ∧ Forall (λ ev, is_database_call ev = false) rest.
Proof.
  intros Hon Hc.
  destruct (db_execute w c (query (state s))) as [df|e] eqn:Hq.
  - unfold execute_query. rewrite (bind_ok _ _ s (state s) s); [|done].
    rewrite Hon. cbn [negb].
    eexists. eexists. split.
    + apply try_except_ok.
      unfold datetime_now, tick, emit, modify, gets, mbind, M_bind. cbn.
      erewrite manager_execute_query_ok; [|exact Hc|exact Hq].
      reflexivity.
    + split; [solve_new_events|]. by repeat constructor.
  - eexists. eexists. split.
    + apply execute_query_failure; [done|].
      by apply (manager_execute_query_rejected w _ c).
    + split; [solve_new_events|]. by repeat constructor.
Qed.

End NeverRaise.

(** ** Connecting: what a failure leaves behind *)

Lemma keeps_on_raise_bind {X A B} (proj : Sys → X) (m : M A) (k : A → M B) :
  keeps proj m → (∀ a, keeps_on_raise proj (k a)) →
  keeps_on_raise proj (m ≫= k).
Proof.
  intros Hm Hk s e s' Hrun.
  apply bind_inv in Hrun as [(a & s1 & H1 & H2)|(e' & H1 & _)].
  - apply Hm in H1. apply Hk in H2. congruence.
  - by apply Hm in H1.
Qed.

Lemma keeps_on_raise_of_keeps {X A} (proj : Sys → X) (m : M A) :
  keeps proj m → keeps_on_raise proj m.
Proof. intros Hm s e s' Hrun. by apply Hm in Hrun. Qed.

Section FailedConnect.
Context (w : World).
Import DuckDBGDriveManager.

Lemma keeps_initialize_connection {X} (proj : Sys → X) fuel c :
  (∀ ev s, proj (logged [ev] s) = proj s) →
  (∀ f s, proj (on_fs f s) = proj s) →
  (∀ f s, proj (on_manager f s) = proj s) →
  keeps proj (initialize_connection w fuel c).
Proof.
  intros Hlog Hfs Hmgr.
  assert (Hexec : ∀ sql, keeps proj (connection_execute w sql))
    by (intros; by apply keeps_connection_execute).
  unfold initialize_connection. apply keeps_try_except.
  - unfold connect_steps.
    apply keeps_bind; [by apply keeps_locate_database|].
    intros [svc files]. destruct files as [|first rest]; [run_parts|].
    unfold fetch_and_open.
    repeat first
      [ apply Hexec
      | apply keeps_get_table_info; apply Hlog
      | apply keeps_open_for_write; [apply Hlog|apply Hfs]
      | apply keeps_download_loop; [apply Hlog|apply Hfs]
      | apply keeps_call; apply Hlog
      | apply keeps_modify; apply Hmgr
      | run_step ].
  - intros e. apply keeps_bind; [apply keeps_modify; apply Hlog|run_parts].
Qed.

(** X5.  A JSON value that Python counts as false (null, false, zero, an
    empty string, list or object) is accepted and stored by the loader,
    but the connect action then still answers "Please upload credentials
    first" and calls nothing remote. *)
Theorem falsy_credentials_are_not_used (file : string) (v : json)
    (fuel : nat) (s : Sys) :
  json_loads w file = Ok v →
  truthy v = false →
  ∃ s1 s2,
    on_file_upload w file s = Some (Ok v, s1)
    ∧ credentials_content (state s1) = v
    ∧ connect_database w fuel s1 = Some (Ok tt, s2)
    ∧ new_events s1 s2 = [EvNotify "error" "Please upload credentials first"].
Proof.
  intros Hparse Hfalsy.
  eexists. eexists. split.
  { unfold on_file_upload. apply try_except_ok.
    rewrite bind_call, Hparse. reflexivity. }
  split; [reflexivity|]. split.
  { unfold connect_database. rewrite bind_gets. tidy. cbn.
    rewrite Hfalsy. reflexivity. }
  solve_new_events.
Qed.

(** X6.  When [initialize_connection] reports failure, the connect
    handler only adds the notification "Connection failed": the whole UI
    state, [connection_status] and the displayed schema included, is as
    it was before the attempt. *)
Theorem failed_connect_keeps_state (fuel : nat) (s s1 : Sys) :
  truthy (credentials_content (state s)) = true →
  initialize_connection w fuel (credentials_content (state s)) s
    = Some (Ok false, s1) →
  connect_database w fuel s
    = Some (Ok tt, logged [EvNotify "error" "Connection failed"] s1)
  ∧ state s1 = state s.
Proof.
  intros Hcreds Hinit. split.
  - unfold connect_database. rewrite bind_gets, Hcreds.
    erewrite bind_ok; [|exact Hinit]. reflexivity.
  - by apply (keeps_initialize_connection state) in Hinit.
Qed.

Lemma fetch_and_open_raise_keeps_table_info fuel svc first :
  keeps_on_raise (λ s, table_info (db_manager s))
    (fetch_and_open w fuel svc first).
Proof.
  unfold fetch_and_open.
  repeat (apply keeps_on_raise_bind; [by run_manager|intros]).
  by intros s e s' H.
Qed.

(** X7.  The manager's schema snapshot changes only when
    [initialize_connection] succeeds: after a failed attempt
    [self.table_info] is what it was, so an earlier snapshot stays. *)
Theorem failed_connection_keeps_table_info (fuel : nat) (c : json)
    (s s' : Sys) :
  initialize_connection w fuel c s = Some (Ok false, s') →
  table_info (db_manager s') = table_info (db_manager s).
Proof.
  unfold initialize_connection, try_except.
  destruct (connect_steps w fuel c s) as [[[b|e] s1]|] eqn:Hsteps;
    [|intros [= <-]|done].
  - intros [= -> <-].
    by apply connect_steps_inv in Hsteps as (? & _).
  - tidy. revert Hsteps. unfold connect_steps. intros Hsteps.
    apply bind_inv in Hsteps as [([svc files] & s0 & Hloc & Hrest)|(e' & Hloc & _)].
    + use_keeps Hloc (λ s, table_info (db_manager s)).
      rewrite <- Hloc. destruct files as [|first rest].
      * by injection Hrest as _ <-.
      * by apply fetch_and_open_raise_keeps_table_info in Hrest.
    + by use_keeps Hloc (λ s, table_info (db_manager s)).
Qed.

End FailedConnect.

(** ** Connecting: running the steps forward *)

Section ForwardFacts.
Context (w : World).
Import DuckDBGDriveManager Steps.

Lemma describe_events_app names1 names2 :
  describe_events w (names1 ++ names2)
  = describe_events w names1 ++ describe_events w names2.
Proof. unfold describe_events. apply map_app. Qed.

Lemma bind_connection_execute {B} sql (k : DataFrame → M B) s c :
  _connection (db_manager s) = Some c →
  (connection_execute w sql ≫= k) s
  = match db_execute w c sql with
    | Ok df => k df (logged [EvDbExecute sql] s)
    | Raise e => Some (Raise e, logged [EvDbExecute sql] s)
    end.
Proof.
  intros Hc. unfold mbind, M_bind.
  rewrite (connection_execute_run w sql s c Hc).
  by destruct (db_execute w c sql).
Qed.

(** The schema loop completes when every description does. *)
Lemma describe_tables_run names : ∀ acc s c,
  _connection (db_manager s) = Some c →
  (∀ k, k ∈ names →
     is_ok (db_execute w c ("DESCRIBE " +:+ str_cell w k)) = true) →
  ∃ info,
    describe_tables w names acc s
    = Some (Ok info, logged (describe_events w names) s).
Proof.
  induction names as [|nm names IH]; intros acc s c Hc Hall.
  - exists acc. simpl. by rewrite logged_nil.
  - simpl. rewrite (bind_connection_execute _ _ s c Hc).
    destruct (db_execute w c ("DESCRIBE " +:+ str_cell w nm))
      as [cols|e] eqn:Hq.
    + destruct (IH (dict_set nm cols acc)
                  (logged [EvDbExecute ("DESCRIBE " +:+ str_cell w nm)] s) c)
        as (info & Hrun); [done| |].
      { intros k Hk. apply Hall. by right. }
      exists info. by rewrite Hrun, logged_logged.
    + specialize (Hall nm). rewrite Hq in Hall.
      discriminate Hall. by left.
Qed.

(** The schema loop over a list is the loop over its front, then over
    its back. *)
Lemma describe_tables_app names1 names2 acc s :
  describe_tables w (names1 ++ names2) acc s
  = (describe_tables w names1 acc ≫= describe_tables w names2) s.
Proof.
  revert acc s.
  induction names1 as [|nm names1 IH]; intros acc s; [reflexivity|].
  simpl. unfold mbind, M_bind.
  destruct (connection_execute w _ s) as [[[cols|e] s1]|];
    [|reflexivity|reflexivity].
  rewrite IH. reflexivity.
Qed.

(** X8.  [_get_table_info] stops at the first table that the engine
    fails to describe: the tables listed before it have been described,
    the failing description is the last database call, the tables listed
    after it are never asked for, and the engine's error is raised as it
    is. *)
Theorem get_table_info_stops_at_failure (s : Sys) (c : connection)
    (tables : DataFrame) (front back : list cell) (bad : cell) (e : exn) :
  _connection (db_manager s) = Some c →
  db_execute w c "SHOW TABLES" = Ok tables →
  df_column tables "name" = Ok (front ++ bad :: back) →
  (∀ k, k ∈ front →
     is_ok (db_execute w c ("DESCRIBE " +:+ str_cell w k)) = true) →
  db_execute w c ("DESCRIBE " +:+ str_cell w bad) = Raise e →
  _get_table_info w s
  = Some (Raise e,
          logged (EvDbExecute "SHOW TABLES"
                    :: describe_events w (front ++ [bad])) s).
Proof.
  intros Hc Hshow Hcol Hfront Hbad.
  unfold _get_table_info.
  rewrite (bind_connection_execute _ _ s c Hc), Hshow, Hcol.
  rewrite describe_tables_app.
  destruct (describe_tables_run front [] (logged [EvDbExecute "SHOW TABLES"] s)
              c Hc Hfront) as (info & Hrun).
  erewrite bind_ok; [|exact Hrun].
  simpl. rewrite (bind_connection_execute _ _ _ c) by done.
  rewrite Hbad.
  by rewrite !logged_logged, describe_events_app.
Qed.

(** [_get_table_info] completes when the listing and every description
    do. *)
Lemma get_table_info_run s c names :
  _connection (db_manager s) = Some c →
  schema_answers w c names →
  ∃ info,
    _get_table_info w s
    = Some (Ok info,
            logged (EvDbExecute "SHOW TABLES" :: describe_events w names) s).
Proof.
  intros Hc [(tables & Hshow & Hcol) Hall].
  unfold _get_table_info.
  rewrite (bind_connection_execute _ _ s c Hc), Hshow, Hcol.
  destruct (describe_tables_run names []
              (logged [EvDbExecute "SHOW TABLES"] s) c Hc Hall)
    as (info & Hrun).
  exists info. by rewrite Hrun, logged_logged.
Qed.

(** The chunk loop, run forward: what it leaves on disk and in the
    trace. *)
Lemma download_loop_run req path ds : ∀ k fuel s final old,
  (∀ j d, ds !! j = Some d →
          next_chunk w req chunksize (k + j) = Ok (d, false)) →
  next_chunk w req chunksize (k + length ds) = Ok (final, true) →
  (length ds < fuel)%nat →
  fs s !! path = Some (File old) →
  ∃ s',
    download_loop w fuel req path k s = Some (Ok tt, s')
    ∧ fs s' !! path = Some (File (old +:+ foldr String.append final ds))
    ∧ trace s'
      = trace s ++ chunk_events (req_file_id req) k (S (length ds))
    ∧ db_manager s' = db_manager s
    ∧ state s' = state s.
Proof.
  induction ds as [|d ds IH]; intros k fuel s final old Hds Hlast Hfuel Hfile.
  - destruct fuel as [|fuel]; [simpl in Hfuel; lia|].
    simpl in Hlast. rewrite Nat.add_0_r in Hlast.
    simpl. rewrite bind_call, Hlast, bind_set_fs.
    eexists. split; [reflexivity|]. tidy.
    split; [|done].
    unfold file_append. rewrite Hfile. apply lookup_insert_eq.
  - destruct fuel as [|fuel]; [simpl in Hfuel; lia|].
    assert (Hk : next_chunk w req chunksize k = Ok (d, false)).
    { rewrite <- (Nat.add_0_r k). by apply Hds. }
    simpl. rewrite bind_call, Hk, bind_set_fs.
    destruct (IH (S k) fuel
                (on_fs (file_append path d)
                   (logged [EvNextChunk (req_file_id req) chunksize k] s))
                final (old +:+ d))
      as (s' & Hrun & Hcontent & Htrace & Hmgr & Hstate).
    + intros j d' Hj.
      replace (S k + j)%nat with (k + S j)%nat by lia. by apply Hds.
    + replace (S k + length ds)%nat with (k + length (d :: ds))%nat
        by (simpl; lia).
      done.
    + simpl in Hfuel. lia.
    + tidy. unfold file_append. rewrite Hfile. apply lookup_insert_eq.
    + exists s'. split; [done|].
      split; [by rewrite Hcontent, append_assoc|].
      split; [|done].
      rewrite Htrace. tidy. by rewrite <- app_assoc.
Qed.

End ForwardFacts.

Section ForwardClaims.
Context (w : World).
Import DuckDBGDriveManager Steps.

(** Up to the schema snapshot, the second part of the [try] block runs
    as its answers say. *)
Lemma fetch_and_open_to_schema fuel first s ds final :
  database_opens w (db_manager s) first ds final →
  (length ds < fuel)%nat →
  ∃ s4,
    fetch_and_open w fuel (the_service (db_manager s)) first s
    = (_get_table_info w
       ≫= λ info, set_manager (with_table_info (Some info))
                  ≫= λ _, mret true) s4
    ∧ db_manager s4
      = with_connection (Some (the_connection (db_manager s))) (db_manager s)
    ∧ state s4 = state s
    ∧ trace s4
      = trace s
          ++ [EvGetMedia (file_id first); EvOpenWrite (_db_path (db_manager s))]
          ++ chunk_events (file_id first) 0 (S (length ds))
          ++ [EvDuckConnect (_db_path (db_manager s)) true;
              EvDbExecute "SET memory_limit='4GB'";
              EvDbExecute "SET threads TO 4"].
Proof.
  intros (Hget & Hopen & Hds & Hlast & Hconn & Hset1 & Hset2) Hfuel.
  unfold fetch_and_open. rewrite bind_gets, bind_call, Hget.
  unfold open_for_write. rewrite bind_assoc, bind_call, Hopen, bind_set_fs.
  destruct (download_loop_run w (the_request (db_manager s) first)
              (_db_path (db_manager s)) ds O fuel
              (on_fs <[_db_path (db_manager s):=File EmptyString]>
                 (logged [EvOpenWrite (_db_path (db_manager s))]
                    (logged [EvGetMedia (file_id first)] s)))
              final EmptyString)
    as (s1 & Hloop & Hfile & Htrace & Hmgr & Hstate); try done.
  { tidy. apply lookup_insert_eq. }
  unfold the_request in Hloop. erewrite bind_ok; [|exact Hloop].
  change (EmptyString +:+ foldr String.append final ds)
    with (foldr String.append final ds) in Hfile.
  rewrite bind_gets, Hfile, bind_call, Hconn, bind_set_manager.
  tidy_in Hmgr. tidy_in Hstate. tidy_in Htrace.
  rewrite (bind_connection_execute w _ _ _ (the_connection (db_manager s)))
    by reflexivity.
  destruct (db_execute w _ "SET memory_limit='4GB'") as [df1|e1];
    [|discriminate Hset1].
  rewrite (bind_connection_execute w _ _ _ (the_connection (db_manager s)))
    by reflexivity.
  destruct (db_execute w _ "SET threads TO 4") as [df2|e2];
    [|discriminate Hset2].
  eexists. split; [reflexivity|]. tidy.
  split; [by rewrite Hmgr|]. split; [done|].
  rewrite Htrace. unfold the_request. tidy. by rewrite <- !app_assoc.
Qed.

(** X9.  If every step completes, [initialize_connection] returns
    [True]: it installs a read-only connection to the downloaded file
    and the snapshot of the listed tables, leaves the UI state alone,
    and makes exactly the calls of the steps, in their order, with one
    [next_chunk] call per chunk. *)
Theorem initialize_connection_succeeds (fuel : nat) (c : json) (s : Sys)
    (resp : ListResponse) (first : DriveFile) (rest : list DriveFile)
    (ds : list string) (final : string) (names : list cell) :
  listing_answers w (db_manager s) c resp →
  resp_files resp = Some (first :: rest) →
  database_opens w (db_manager s) first ds final →
  (length ds < fuel)%nat →
  schema_answers w (the_connection (db_manager s)) names →
  ∃ info s',
    initialize_connection w fuel c s = Some (Ok true, s')
    ∧ db_manager s'
      = with_table_info (Some info)
          (with_connection (Some (the_connection (db_manager s)))
             (db_manager s))
    ∧ snapshot_of w (the_connection (db_manager s)) names info
    ∧ state s' = state s
    ∧ new_events s s'
      = connect_events (db_manager s) c first (S (length ds))
          ++ EvDbExecute "SHOW TABLES" :: describe_events w names.
Proof.
  intros Hlist Hfiles Hopens Hfuel Hschema.
  destruct (connect_steps_after_listing w fuel c s resp Hlist)
    as (s1 & Htrace1 & Hmgr1 & Hstate1 & Heq).
  rewrite Hfiles in Heq. simpl in Heq.
  rewrite <- Hmgr1 in Hopens, Heq.
  destruct (fetch_and_open_to_schema fuel first s1 ds final Hopens Hfuel)
    as (s4 & Hfetch & Hmgr4 & Hstate4 & Htrace4).
  rewrite Hmgr1 in Hmgr4, Htrace4.
  assert (Hc4 : _connection (db_manager s4)
                = Some (the_connection (db_manager s)))
    by (by rewrite Hmgr4).
  destruct (get_table_info_run w s4 _ names Hc4 Hschema) as (info & Hinfo).
  pose proof Hinfo as Hinv.
  apply get_table_info_inv in Hinv
    as (c' & tables' & names' & Hc' & Hshow' & Hcol' & Hnd & Hkeys & Hdesc & _).
  assert (c' = the_connection (db_manager s)) as -> by congruence.
  assert (names' = names) as ->.
  { destruct Hschema as [(tables & Hshow & Hcol) _]. congruence. }
  exists info. eexists. split.
  { unfold initialize_connection. apply try_except_ok.
    rewrite Heq, Hfetch. erewrite bind_ok; [|exact Hinfo]. reflexivity. }
  tidy. split; [by rewrite Hmgr4|]. split; [done|].
  split; [congruence|].
  apply new_events_app. tidy. rewrite Htrace4, Htrace1.
  unfold connect_events. by rewrite <- !app_assoc.
Qed.

(** X10.  If the steps complete up to the two settings but the schema
    introspection fails, [initialize_connection] returns [False] after
    logging the error, and yet the manager is left holding the new open
    connection; the snapshot and the UI state are as before.  So the page
    shows "not connected" while the manager would run queries. *)
Theorem introspection_failure_leaves_connection (fuel : nat) (c : json)
    (s : Sys) (resp : ListResponse) (first : DriveFile)
    (rest : list DriveFile) (ds : list string) (final : string) :
  listing_answers w (db_manager s) c resp →
  resp_files resp = Some (first :: rest) →
  database_opens w (db_manager s) first ds final →
  (length ds < fuel)%nat →
  (∀ names, ¬ schema_answers w (the_connection (db_manager s)) names) →
  ∃ s' e,
    initialize_connection w fuel c s = Some (Ok false, s')
    ∧ last (trace s') = Some (EvPrint ("Connection error: " +:+ exn_str e))
    ∧ _connection (db_manager s') = Some (the_connection (db_manager s))
    ∧ table_info (db_manager s') = table_info (db_manager s)
    ∧ state s' = state s.
Proof.
  intros Hlist Hfiles Hopens Hfuel Hfails.
  destruct (connect_steps_after_listing w fuel c s resp Hlist)
    as (s1 & Htrace1 & Hmgr1 & Hstate1 & Heq).
  rewrite Hfiles in Heq. simpl in Heq.
  rewrite <- Hmgr1 in Hopens, Heq.
  destruct (fetch_and_open_to_schema fuel first s1 ds final Hopens Hfuel)
    as (s4 & Hfetch & Hmgr4 & Hstate4 & _).
  rewrite Hmgr1 in Hmgr4.
  destruct (total_get_table_info w s4) as [[[info|e] s5] Hinfo].
  - exfalso.
    apply get_table_info_inv in Hinfo
      as (c' & tables & names & Hc' & Hshow & Hcol & _ & _ & Hdesc & _).
    assert (c' = the_connection (db_manager s)) as ->
      by (rewrite Hmgr4 in Hc'; by injection Hc').
    apply (Hfails names). split; [by exists tables|].
    intros k Hk. by destruct (Hdesc k Hk) as (df & -> & _).
  - pose proof Hinfo as Hmgr5. use_keeps Hmgr5 db_manager.
    pose proof Hinfo as Hstate5. use_keeps Hstate5 state.
    eexists. exists e. split.
    { unfold initialize_connection.
      erewrite try_except_raise; [reflexivity|].
      rewrite Heq, Hfetch. by erewrite bind_raise. }
    tidy. split; [apply last_snoc|].
    rewrite Hmgr5, Hmgr4. split; [done|]. split; [done|]. congruence.
Qed.

End ForwardClaims.

(** ** Invariants of the manager and of the page *)

Section Invariants.
Context (w : World).

Lemma keeps_initialize_connection_attrs {X} (proj : Sys → X) fuel c :
  (∀ ev s, proj (logged [ev] s) = proj s) →
  (∀ f s, proj (on_fs f s) = proj s) →
  (∀ conn s, proj (on_manager (with_connection conn) s) = proj s) →
  (∀ info s, proj (on_manager (with_table_info info) s) = proj s) →
  keeps proj (DuckDBGDriveManager.initialize_connection w fuel c).
Proof.
  intros Hlog Hfs Hconn Hinfo.
  assert (Hexec : ∀ sql, keeps proj (DuckDBGDriveManager.connection_execute w sql))
    by (intros; by apply keeps_connection_execute).
  unfold DuckDBGDriveManager.initialize_connection. apply keeps_try_except.
  - unfold DuckDBGDriveManager.connect_steps.
    apply keeps_bind; [by apply keeps_locate_database|].
    intros [svc files]. destruct files as [|first rest]; [run_parts|].
    unfold DuckDBGDriveManager.fetch_and_open.
    repeat first
      [ apply Hexec
      | apply keeps_get_table_info; apply Hlog
      | apply keeps_open_for_write; [apply Hlog|apply Hfs]
      | apply keeps_download_loop; [apply Hlog|apply Hfs]
      | apply keeps_call; apply Hlog
      | apply keeps_modify; apply Hconn
      | apply keeps_modify; apply Hinfo
      | run_step ].
  - intros e. apply keeps_bind; [apply keeps_modify; apply Hlog|run_parts].
Qed.

Lemma keeps_cleanup {X} (proj : Sys → X) :
  (∀ ev s, proj (logged [ev] s) = proj s) →
  (∀ f s, proj (on_fs f s) = proj s) →
  (∀ conn s, proj (on_manager (with_connection conn) s) = proj s) →
  keeps proj DuckDBGDriveManager.cleanup.
Proof.
  intros Hlog Hfs Hconn. unfold DuckDBGDriveManager.cleanup.
  apply keeps_bind; [run_parts|]. intros self.
  apply keeps_bind.
  { destruct (_connection self); [|run_parts].
    apply keeps_bind; [apply keeps_modify; apply Hlog|].
    intros _. apply keeps_modify. apply Hconn. }
  intros _. apply keeps_bind; [run_parts|]. intros disk.
  destruct (path_exists disk (_temp_dir self)); [|run_parts].
  apply keeps_bind; [apply keeps_modify; apply Hlog|].
  intros _. apply keeps_modify. apply Hfs.
Qed.

Lemma keeps_page_execute_query {X} (proj : Sys → X) :
  (∀ ev s, proj (logged [ev] s) = proj s) →
  (∀ r s, proj (on_state (with_results r) s) = proj s) →
  (∀ t s, proj (on_state (with_execution_time t) s) = proj s) →
  (∀ e s, proj (on_state (with_error_message e) s) = proj s) →
  (∀ s, proj (next_tick s) = proj s) →
  keeps proj (execute_query w).
Proof.
  intros Hlog Hres Htime Herr Htick. unfold execute_query.
  apply keeps_bind; [run_parts|].
  intros st. destruct (negb (connection_status st)).
  { apply keeps_modify. apply Hlog. }
  unfold datetime_now, tick.
  repeat first
    [ apply keeps_manager_execute_query; apply Hlog
    | apply keeps_modify; apply Hlog
    | apply keeps_modify; apply Hres
    | apply keeps_modify; apply Htime
    | apply keeps_modify; apply Herr
    | apply keeps_modify; apply Htick
    | run_step ].
Qed.

Lemma keeps_connect_database {X} (proj : Sys → X) fuel :
  (∀ ev s, proj (logged [ev] s) = proj s) →
  (∀ f s, proj (on_fs f s) = proj s) →
  (∀ conn s, proj (on_manager (with_connection conn) s) = proj s) →
  (∀ info s, proj (on_manager (with_table_info info) s) = proj s) →
  (∀ f s, proj (on_state f s) = proj s) →
  keeps proj (connect_database w fuel).
Proof.
  intros Hlog Hfs Hconn Hinfo Hstate. unfold connect_database.
  apply keeps_bind; [run_parts|]. intros st.
  destruct (truthy (credentials_content st));
    [|apply keeps_modify; apply Hlog].
  apply keeps_bind; [by apply keeps_initialize_connection_attrs|].
  intros [|]; [|apply keeps_modify; apply Hlog].
  repeat first
    [ apply keeps_modify; apply Hlog
    | apply keeps_modify; apply Hstate
    | run_step ].
Qed.

(** X11.  No operation changes what [DuckDBGDriveManager.__init__] fixed: the temporary
    directory, the database path, the folder id and the file name of the
    manager are the same after connecting (successfully or not), after a
    query, and after DuckDBGDriveManager.cleanup. *)
Theorem manager_constants_are_kept :
  (∀ fuel c, keeps manager_constants (DuckDBGDriveManager.initialize_connection w fuel c))
  ∧ (∀ q, keeps manager_constants (DuckDBGDriveManager.execute_query w q))
  ∧ keeps manager_constants DuckDBGDriveManager.cleanup
  ∧ (∀ fuel, keeps manager_constants (connect_database w fuel))
  ∧ keeps manager_constants (execute_query w).
Proof.
  split; [|split; [|split; [|split]]].
  - intros. by apply keeps_initialize_connection_attrs.
  - intros. by apply keeps_manager_execute_query.
  - by apply keeps_cleanup.
  - intros. by apply keeps_connect_database.
  - by apply keeps_page_execute_query.
Qed.

(** X12.  No handler ever sets [connection_status] back to false: once
    the page shows "connected" it keeps showing it, after a failed
    query, a failed reconnect, another upload, an export, and even after
    the manager's DuckDBGDriveManager.cleanup has closed the connection. *)
Theorem connection_status_is_never_reset :
  keeps (λ s, connection_status (state s)) (execute_query w)
  ∧ (∀ file, keeps (λ s, connection_status (state s)) (on_file_upload w file))
  ∧ keeps (λ s, connection_status (state s)) (download_results w)
  ∧ keeps (λ s, connection_status (state s)) DuckDBGDriveManager.cleanup
  ∧ ∀ fuel s r s',
      connect_database w fuel s = Some (r, s') →
      connection_status (state s) = true →
      connection_status (state s') = true.
Proof.
  split; [|split; [|split; [|split]]].
  - by apply keeps_page_execute_query.
  - intros file. unfold on_file_upload. run_parts.
  - unfold download_results. apply keeps_bind; [run_parts|].
    intros st. destruct (results st); run_parts.
  - by apply keeps_cleanup.
  - intros fuel s r s'. unfold connect_database. rewrite bind_gets.
    destruct (truthy (credentials_content (state s))).
    + intros Hrun Hon.
      apply bind_inv in Hrun as [(ok & s1 & Hinit & Hrest)|(e & Hinit & _)].
      * apply (keeps_initialize_connection w state) in Hinit; try done.
        destruct ok.
        -- by injection Hrest as _ <-.
        -- injection Hrest as _ <-. tidy. by rewrite Hinit.
      * apply (keeps_initialize_connection w state) in Hinit; try done.
        by rewrite Hinit.
    + intros [= _ <-]. done.
Qed.

End Invariants.

(** ** Cleanup, again and afterwards *)

Section CleanupAgain.
Context (w : World).

Lemma bind_ret {A B} (a : A) (k : A → M B) s : (mret a ≫= k) s = k a s.
Proof. reflexivity. Qed.

Lemma bind_emit {B} ev (k : unit → M B) s :
  (emit ev ≫= k) s = k tt (logged [ev] s).
Proof. reflexivity. Qed.

(** [cleanup] in one step. *)
Lemma cleanup_unfold s :
  DuckDBGDriveManager.cleanup s
  = Some (Ok tt,
          (if path_exists (fs s) (_temp_dir (db_manager s))
           then λ s0, on_fs (rmtree (_temp_dir (db_manager s)))
                        (logged [EvRmtree (_temp_dir (db_manager s))] s0)
           else λ s0, s0)
            match _connection (db_manager s) with
            | Some c => on_manager (with_connection (Some (close c)))
                          (logged [EvDbClose] s)
            | None => s
            end).
Proof.
  unfold DuckDBGDriveManager.cleanup. rewrite bind_gets.
  destruct (_connection (db_manager s)) as [c|]; cbv beta iota.
  - rewrite bind_assoc, bind_emit, bind_set_manager, bind_gets. tidy.
    by destruct (path_exists (fs s) (_temp_dir (db_manager s))).
  - rewrite bind_ret, bind_gets.
    by destruct (path_exists (fs s) (_temp_dir (db_manager s))).
Qed.

Lemma path_exists_rmtree d disk : path_exists (rmtree d disk) d = false.
Proof.
  unfold path_exists. apply bool_decide_eq_false.
  rewrite (rmtree_under d d disk (under_self d)). by intros [x Hx].
Qed.

(** X13.  Running [DuckDBGDriveManager.cleanup] a second time is harmless: it returns
    normally, removes nothing (there is no second [rmtree]), and leaves
    the disk, the manager and the UI state exactly as the first run left
    them; only the close call is repeated when there is a connection
    object. *)
Theorem cleanup_twice (s s1 : Sys) :
  DuckDBGDriveManager.cleanup s = Some (Ok tt, s1) →
  DuckDBGDriveManager.cleanup s1
  = Some (Ok tt,
          logged (match _connection (db_manager s) with
                  | Some _ => [EvDbClose]
                  | None => []
                  end) s1).
Proof.
  intros Hrun. rewrite cleanup_unfold in Hrun. injection Hrun as <-.
  rewrite cleanup_unfold.
  destruct (_connection (db_manager s)) as [c|] eqn:Hc;
    destruct (path_exists (fs s) (_temp_dir (db_manager s))) eqn:Hex;
    tidy; rewrite ?Hc; tidy; rewrite ?path_exists_rmtree, ?Hex;
    by rewrite ?logged_nil.
Qed.

(** X14.  [DuckDBGDriveManager.cleanup] closes the connection but keeps the handle: a query
    made afterwards is not refused with "Database not connected"; it is
    sent to the engine on the closed handle, and any refusal comes from
    the engine. *)
Theorem query_after_cleanup (s : Sys) (c : connection) (q : string) :
  _connection (db_manager s) = Some c →
  ∃ s1,
    DuckDBGDriveManager.cleanup s = Some (Ok tt, s1)
    ∧ state s1 = state s
    ∧ DuckDBGDriveManager.execute_query w q s1
      = match db_execute w (close c) q with
        | Ok df => Some (Ok df, logged [EvDbExecute q] s1)
        | Raise e => Some (Raise (wrapped e), logged [EvDbExecute q] s1)
        end.
Proof.
  intros Hc.
  assert (Hrun : ∃ s1, DuckDBGDriveManager.cleanup s = Some (Ok tt, s1)
                       ∧ state s1 = state s
                       ∧ _connection (db_manager s1) = Some (close c)).
  { unfold DuckDBGDriveManager.cleanup. rewrite bind_gets, Hc.
    rewrite bind_assoc, bind_emit, bind_set_manager, bind_gets. tidy.
    destruct (path_exists (fs s) (_temp_dir (db_manager s)));
      eexists; (split; [reflexivity|done]). }
  destruct Hrun as (s1 & Hrun & Hstate & Hc1).
  exists s1. split; [done|]. split; [done|].
  destruct (db_execute w (close c) q) as [df|e] eqn:Hq.
  - by apply (manager_execute_query_ok w s1 (close c)).
  - by apply (manager_execute_query_rejected w s1 (close c)).
Qed.

(** X15.  The manager that [DuckDBGDriveManager.__init__] returns has no connection and no
    snapshot, its database path lies inside the directory that
    [mkdtemp] created, that directory is on disk, and no other path of
    the disk was touched.  If [mkdtemp] fails, [DuckDBGDriveManager.__init__] raises the
    same error and the disk is as it was. *)
Theorem init_builds_in_fresh_directory (s : Sys) :
  (∀ d, mkdtemp w (fs s) = Ok d →
     ∃ m s',
       DuckDBGDriveManager.__init__ w s = Some (Ok m, s')
       ∧ _temp_dir m = d
       ∧ (d ≠ EmptyString → under d (_db_path m) = true)
       ∧ _connection m = None
       ∧ table_info m = None
       ∧ fs s' !! d = Some Dir
       ∧ ∀ p, p ≠ d → fs s' !! p = fs s !! p)
  ∧ (∀ e, mkdtemp w (fs s) = Raise e →
       ∃ s', DuckDBGDriveManager.__init__ w s = Some (Raise e, s') ∧ fs s' = fs s).
Proof.
  split.
  - intros d Hd. unfold DuckDBGDriveManager.__init__. rewrite bind_gets, bind_call, Hd.
    rewrite bind_set_fs.
    eexists. eexists. split; [reflexivity|]. tidy.
    split; [done|]. split; [intros Hne; by apply path_join_under|].
    split; [done|]. split; [done|].
    split; [apply lookup_insert_eq|].
    intros p Hp. by apply lookup_insert_ne.
  - intros e He. unfold DuckDBGDriveManager.__init__. rewrite bind_gets, bind_call, He.
    by eexists.
Qed.

End CleanupAgain.

(** ** What connecting does to the disk *)

Lemma file_append_other (q p data : string) (disk : gmap string node) :
  q ≠ p → file_append q data disk !! p = disk !! p.
Proof.
  intros Hne. unfold file_append.
  destruct (disk !! q) as [[|old]|]; by apply lookup_insert_ne.
Qed.

Lemma append_inv_head (d x y : string) : d +:+ x = d +:+ y → x = y.
Proof.
  induction d as [|a d IH]; [done|].
  change (String a (d +:+ x) = String a (d +:+ y) → x = y).
  intros [= H]. by apply IH.
Qed.

(** Two names that [os.path.join] places in one directory give two
    paths. *)
Lemma path_join_inj (d a b : string) :
  String.prefix slash a = false →
  String.prefix slash b = false →
  path_join d a = path_join d b → a = b.
Proof.
  intros Ha Hb. unfold path_join. rewrite Ha, Hb.
  destruct (String.eqb d EmptyString || ends_with_slash d).
  - apply append_inv_head.
  - intros H. apply append_inv_head in H. by apply append_inv_head in H.
Qed.

(** Tries the frame lemmas for one path of the disk, then the generic
    steps. *)
Ltac run_disk w :=
  repeat first
    [ apply (keeps_connection_execute w); reflexivity
    | apply (keeps_get_table_info w); reflexivity
    | apply keeps_call; reflexivity
    | match goal with
      | H : ∀ q, _ → keeps _ (DuckDBGDriveManager.open_for_write w q) |- _ =>
          apply H; congruence
      end
    | match goal with
      | H : ∀ fuel req q k, _ →
              keeps _ (DuckDBGDriveManager.download_loop w fuel req q k) |- _ =>
          apply H; congruence
      end
    | match goal with
      | H : ∀ q data, _ → keeps _ (set_fs (file_append q data)) |- _ =>
          apply H; congruence
      end
    | run_step ].

Section DiskFacts.
Context (w : World) (p : string).
Import Steps.

Lemma keeps_open_for_write_at q :
  q ≠ p → keeps (λ s, fs s !! p) (DuckDBGDriveManager.open_for_write w q).
Proof.
  intros Hne. unfold DuckDBGDriveManager.open_for_write.
  apply keeps_bind; [by apply keeps_call|].
  intros _. apply keeps_modify. intros s. tidy. by apply lookup_insert_ne.
Qed.

Lemma keeps_file_append_at q data :
  q ≠ p → keeps (λ s, fs s !! p) (set_fs (file_append q data)).
Proof.
  intros Hne. apply keeps_modify. intros s. tidy.
  by apply file_append_other.
Qed.

Lemma keeps_download_loop_at fuel req q : ∀ k,
  q ≠ p →
  keeps (λ s, fs s !! p) (DuckDBGDriveManager.download_loop w fuel req q k).
Proof.
  induction fuel as [|fuel IH]; intros k Hne; simpl.
  - by intros s r s' ?.
  - apply keeps_bind; [by apply keeps_call|].
    intros [data fin].
    apply keeps_bind; [by apply keeps_file_append_at|].
    intros _. destruct fin; [run_parts|by apply IH].
Qed.

Lemma locate_database_disk c s r s1 :
  DuckDBGDriveManager.locate_database w c s = Some (r, s1) →
  p ≠ creds_path (db_manager s) →
  fs s1 !! p = fs s !! p.
Proof.
  unfold DuckDBGDriveManager.locate_database. rewrite bind_gets.
  fold (creds_path (db_manager s)). intros Hrun Hp.
  pose proof keeps_open_for_write_at as Hopen.
  pose proof keeps_file_append_at as Happend.
  match type of Hrun with
  | ?m ?s0 = Some _ => assert (Hm : keeps (λ s, fs s !! p) m) by run_disk w
  end.
  by apply Hm in Hrun.
Qed.

Lemma fetch_and_open_disk fuel svc first s r s' :
  DuckDBGDriveManager.fetch_and_open w fuel svc first s = Some (r, s') →
  p ≠ _db_path (db_manager s) →
  fs s' !! p = fs s !! p.
Proof.
  unfold DuckDBGDriveManager.fetch_and_open. rewrite bind_gets.
  intros Hrun Hp.
  pose proof keeps_open_for_write_at as Hopen.
  pose proof keeps_download_loop_at as Hloop.
  match type of Hrun with
  | ?m ?s0 = Some _ => assert (Hm : keeps (λ s, fs s !! p) m) by run_disk w
  end.
  by apply Hm in Hrun.
Qed.

(** X16.  [initialize_connection] writes two files and nothing else:
    whatever the outcome, every path other than the credential file and
    the database file holds afterwards what it held before. *)
Theorem initialize_connection_writes_two_files (fuel : nat) (c : json)
    (s : Sys) (r : outcome bool) (s' : Sys) :
  DuckDBGDriveManager.initialize_connection w fuel c s = Some (r, s') →
  p ≠ creds_path (db_manager s) →
  p ≠ _db_path (db_manager s) →
  fs s' !! p = fs s !! p.
Proof.
  intros Hrun Hcreds Hdb.
  assert (Hsteps : ∀ r1 s1,
            DuckDBGDriveManager.connect_steps w fuel c s = Some (r1, s1) →
            fs s1 !! p = fs s !! p).
  { intros r1 s1. unfold DuckDBGDriveManager.connect_steps. intros H.
    apply bind_inv in H as [([svc files] & s0 & Hloc & Hrest)|(e & Hloc & _)].
    - pose proof Hloc as Hmgr. use_keeps Hmgr db_manager.
      apply locate_database_disk in Hloc; [|done].
      rewrite <- Hloc. destruct files as [|first rest].
      + by injection Hrest as _ <-.
      + apply fetch_and_open_disk in Hrest; [done|]. by rewrite Hmgr.
    - by apply locate_database_disk in Hloc. }
  unfold DuckDBGDriveManager.initialize_connection, try_except in Hrun.
  destruct (DuckDBGDriveManager.connect_steps w fuel c s)
    as [[[b|e] s1]|] eqn:Hrun1; [| |done].
  - injection Hrun as _ <-. by apply (Hsteps (Ok b)).
  - injection Hrun as _ <-. tidy. by apply (Hsteps (Raise e)).
Qed.

End DiskFacts.

Section CredentialFile.
Context (w : World).
Import Steps.

Lemma creds_path_not_db_path (self : Manager) :
  _db_path self = path_join (_temp_dir self) "pricecatcher.duckdb" →
  creds_path self ≠ _db_path self.
Proof.
  intros Hdb Heq. rewrite Hdb in Heq. unfold creds_path in Heq.
  by apply path_join_inj in Heq.
Qed.

(** X17.  Once the credentials have been written, they stay on disk in
    the temporary directory: after [initialize_connection], whether it
    succeeded or failed at any later step, the credential file holds
    exactly the text that [json.dump] produced.  (Only [cleanup] removes
    it.) *)
Theorem credentials_stay_on_disk (fuel : nat) (c : json) (text : string)
    (s : Sys) (r : outcome bool) (s' : Sys) :
  _db_path (db_manager s)
    = path_join (_temp_dir (db_manager s)) "pricecatcher.duckdb" →
  open_write w (creds_path (db_manager s)) = Ok tt →
  json_dump w c = Ok text →
  DuckDBGDriveManager.initialize_connection w fuel c s = Some (r, s') →
  fs s' !! creds_path (db_manager s) = Some (File text).
Proof.
  intros Hpaths Hopen Hdump Hrun.
  pose proof (creds_path_not_db_path _ Hpaths) as Hne.
  assert (Hloc : ∀ r0 s0,
            DuckDBGDriveManager.locate_database w c s = Some (r0, s0) →
            fs s0 !! creds_path (db_manager s) = Some (File text)).
  { intros r0 s0. unfold DuckDBGDriveManager.locate_database.
    rewrite bind_gets. unfold DuckDBGDriveManager.open_for_write.
    rewrite bind_assoc, bind_call. fold (creds_path (db_manager s)).
    rewrite Hopen, bind_set_fs, bind_call, Hdump, bind_set_fs.
    intros H. use_keeps H (λ s0, fs s0 !! creds_path (db_manager s)).
    rewrite H. tidy. apply written_file. }
  assert (Hsteps : ∀ r1 s1,
            DuckDBGDriveManager.connect_steps w fuel c s = Some (r1, s1) →
            fs s1 !! creds_path (db_manager s) = Some (File text)).
  { intros r1 s1. unfold DuckDBGDriveManager.connect_steps. intros H.
    apply bind_inv in H as [([svc files] & s0 & H0 & Hrest)|(e & H0 & _)].
    - pose proof H0 as Hmgr. use_keeps Hmgr db_manager.
      apply Hloc in H0. destruct files as [|first rest].
      + by injection Hrest as _ <-.
      + apply (fetch_and_open_disk w (creds_path (db_manager s))) in Hrest.
        * by rewrite Hrest.
        * by rewrite Hmgr.
    - by apply Hloc in H0. }
  unfold DuckDBGDriveManager.initialize_connection, try_except in Hrun.
  destruct (DuckDBGDriveManager.connect_steps w fuel c s)
    as [[[b|e] s1]|] eqn:Hrun1; [| |done].
  - injection Hrun as _ <-. by apply (Hsteps (Ok b)).
  - injection Hrun as _ <-. tidy. by apply (Hsteps (Raise e)).
Qed.

End CredentialFile.

(** ** The page and the manager agree *)

Lemma preserves_bind {A B} (P : Sys → Prop) (m : M A) (k : A → M B) :
  preserves P m → (∀ a, preserves P (k a)) → preserves P (m ≫= k).
Proof.
  intros Hm Hk s r s' Hrun HP.
  apply bind_inv in Hrun as [(a & s1 & H1 & H2)|(e & H1 & _)].
  - eapply Hk; [exact H2|]. by eapply Hm.
  - by eapply Hm.
Qed.

Lemma preserves_try_except {A} (P : Sys → Prop) (m : M A) (h : exn → M A) :
  preserves P m → (∀ e, preserves P (h e)) → preserves P (try_except m h).
Proof.
  intros Hm Hh s r s' Hrun HP. unfold try_except in Hrun.
  destruct (m s) as [[[a|e] s1]|] eqn:H1; [| |done].
  - injection Hrun as <- <-. by apply (Hm s (Ok a)).
  - eapply Hh; [exact Hrun|]. by eapply Hm.
Qed.

Lemma preserves_of_keeps {X A} (proj : Sys → X) (Q : X → Prop) (m : M A) :
  keeps proj m → preserves (λ s, Q (proj s)) m.
Proof. intros Hm s r s' Hrun HQ. by rewrite (Hm s r s' Hrun). Qed.

Section Agreement.
Context (w : World).

Lemma initialize_connection_preserves_handle fuel c :
  preserves has_handle (DuckDBGDriveManager.initialize_connection w fuel c).
Proof.
  assert (Hkeep : ∀ A (m : M A), keeps db_manager m → preserves has_handle m).
  { intros A m Hm. by apply (preserves_of_keeps db_manager
                               (λ mgr, is_Some (_connection mgr))). }
  unfold DuckDBGDriveManager.initialize_connection.
  apply preserves_try_except; [|intros e; apply Hkeep; run_parts].
  unfold DuckDBGDriveManager.connect_steps.
  apply preserves_bind; [apply Hkeep; by apply keeps_locate_database|].
  intros [svc files]. destruct files as [|first rest];
    [apply Hkeep; run_parts|].
  unfold DuckDBGDriveManager.fetch_and_open.
  repeat first
    [ apply preserves_bind; [apply Hkeep; by run_manager|intros]
    | apply preserves_bind;
        [intros s r s' [= <- <-] HP; tidy; by eexists|intros]
    | apply preserves_bind;
        [intros s r s' [= <- <-] [x Hx]; exists x; exact Hx|intros] ].
  apply Hkeep. run_parts.
Qed.

(** X18.  The page and the manager stay in agreement: if the page shows
    "connected" only when the manager has a connection object, then the
    same holds after any handler and after cleanup.  It holds at
    start-up, so through the page the manager's own "Database not
    connected" refusal is never reached. *)
Theorem page_stays_consistent :
  (∀ s, state s = initial_state → page_consistent s)
  ∧ (∀ fuel, preserves page_consistent (connect_database w fuel))
  ∧ preserves page_consistent (execute_query w)
  ∧ (∀ file, preserves page_consistent (on_file_upload w file))
  ∧ preserves page_consistent (download_results w)
  ∧ preserves page_consistent DuckDBGDriveManager.cleanup.
Proof.
  assert (Hpair : ∀ A (m : M A),
            keeps (λ s, (connection_status (state s),
                         _connection (db_manager s))) m →
            preserves page_consistent m).
  { intros A m Hm s r s' Hrun Hcons. apply Hm in Hrun.
    injection Hrun as Hstatus Hconn.
    unfold page_consistent, has_handle. by rewrite Hstatus, Hconn. }
  split; [|split; [|split; [|split; [|split]]]].
  - intros s Hs Hon. by rewrite Hs in Hon.
  - intros fuel s r s'. unfold connect_database. rewrite bind_gets.
    destruct (truthy (credentials_content (state s)));
      [|by intros [= _ <-]].
    intros Hrun Hcons.
    apply bind_inv in Hrun as [(ok & s1 & Hinit & Hrest)|(e & Hinit & _)].
    + destruct ok.
      * injection Hrest as _ <-. intros _. unfold has_handle. tidy.
        unfold DuckDBGDriveManager.initialize_connection, try_except in Hinit.
        destruct (DuckDBGDriveManager.connect_steps w fuel _ s)
          as [[[b|e] s0]|] eqn:Hsteps; [|done|done].
        injection Hinit as -> ->.
        apply connect_steps_inv in Hsteps
          as (_ & resp & first & rest & names & info
              & _ & _ & _ & _ & _ & -> & _).
        by eexists.
      * injection Hrest as _ <-. unfold page_consistent, has_handle. tidy.
        pose proof Hinit as Hstate.
        apply (keeps_initialize_connection w state) in Hstate; try done.
        rewrite Hstate. intros Hon.
        apply (initialize_connection_preserves_handle _ _ _ _ _ Hinit).
        by apply Hcons.
    + pose proof Hinit as Hstate.
      apply (keeps_initialize_connection w state) in Hstate; try done.
      unfold page_consistent. rewrite Hstate. intros Hon.
      apply (initialize_connection_preserves_handle _ _ _ _ _ Hinit).
      by apply Hcons.
  - apply Hpair. by apply keeps_page_execute_query.
  - intros file. apply Hpair. unfold on_file_upload. run_parts.
  - apply Hpair. unfold download_results. apply keeps_bind; [run_parts|].
    intros st. destruct (results st); run_parts.
  - intros s r s' Hrun. rewrite cleanup_unfold in Hrun.
    injection Hrun as _ <-. unfold page_consistent, has_handle.
    destruct (_connection (db_manager s)) as [c|] eqn:Hc;
      destruct (path_exists (fs s) (_temp_dir (db_manager s)));
      tidy; rewrite ?Hc; intros Hcons Hon; try (by eexists);
      by apply Hcons.
Qed.

End Agreement.

(** ** The further properties at work in the demonstration world *)

Lemma connect_database_returns_witness :
  ∃ s' kind msg,
    connect_database Demo.two_matches 3 Demo.uploaded = Some (Ok tt, s')
    ∧ last (trace s') = Some (EvNotify kind msg).
Proof.
  apply (connect_database_returns Demo.two_matches 2 3 Demo.uploaded).
  - intros req. exists 1%nat. split; [lia|reflexivity].
  - lia.
Defined.

Lemma manager_execute_query_wraps_witness :
  ∃ s',
    DuckDBGDriveManager.execute_query Demo.two_matches "SELEC * FROM t"
      Demo.connected
    = Some (Raise (mkExn "Exception"
                     "Query execution failed: Parser Error: syntax error at or near SELEC"),
            s')
    ∧ new_events Demo.connected s' = [EvDbExecute "SELEC * FROM t"].
Proof.
  destruct (manager_execute_query_wraps Demo.two_matches "SELEC * FROM t"
              Demo.connected)
    as (r & s' & Hrun & [(c & df & Hc & Hq & _)
                        |[(c & e & Hc & Hq & Hr & Hev)|(Hc & _)]]).
  - injection Hc as <-. discriminate Hq.
  - injection Hc as <-. injection Hq as <-.
    exists s'. split; [|exact Hev]. by rewrite Hrun, Hr.
  - discriminate Hc.
Defined.

Lemma execute_query_forwards_verbatim_witness :
  ∃ s' rest,
    execute_query Demo.two_matches Demo.misspelled = Some (Ok tt, s')
    ∧ new_events Demo.misspelled s'
      = EvNow :: EvDbExecute (query (state Demo.misspelled)) :: rest
    ∧ Forall (λ ev, is_database_call ev = false) rest.
Proof.
  apply (execute_query_forwards_verbatim Demo.two_matches Demo.misspelled
           Scenario.demo_connection); reflexivity.
Defined.

Lemma falsy_credentials_are_not_used_witness :
  ∃ s1 s2,
    on_file_upload Demo.two_matches "[]" Demo.boot = Some (Ok (JArr []), s1)
    ∧ credentials_content (state s1) = JArr []
    ∧ connect_database Demo.two_matches 3 s1 = Some (Ok tt, s2)
    ∧ new_events s1 s2 = [EvNotify "error" "Please upload credentials first"].
Proof.
  apply (falsy_credentials_are_not_used Demo.two_matches "[]" (JArr []) 3
           Demo.boot); reflexivity.
Defined.

Lemma failed_connect_keeps_state_witness :
  connect_database Demo.no_match 3 Demo.uploaded
    = Some (Ok tt,
            logged [EvNotify "error" "Connection failed"]
              (Demo.after
                 (DuckDBGDriveManager.initialize_connection Demo.no_match 3
                    Demo.key_json) Demo.uploaded))
  ∧ state (Demo.after
             (DuckDBGDriveManager.initialize_connection Demo.no_match 3
                Demo.key_json) Demo.uploaded)
    = state Demo.uploaded.
Proof.
  apply (failed_connect_keeps_state Demo.no_match 3 Demo.uploaded).
  - reflexivity.
  - vm_compute. reflexivity.
Defined.

Lemma failed_connection_keeps_table_info_witness :
  table_info
    (db_manager
       (Demo.after
          (DuckDBGDriveManager.initialize_connection Demo.no_match 3
             Demo.key_json) Demo.connected))
  = table_info (db_manager Demo.connected).
Proof.
  apply (failed_connection_keeps_table_info Demo.no_match 3 Demo.key_json
           Demo.connected).
  vm_compute. reflexivity.
Defined.

Lemma get_table_info_stops_at_failure_witness :
  DuckDBGDriveManager._get_table_info Scenario.broken_schema Demo.connected
  = Some (Raise Scenario.catalog_error,
          logged [EvDbExecute "SHOW TABLES"; EvDbExecute "DESCRIBE items";
                  EvDbExecute "DESCRIBE prices"] Demo.connected).
Proof.
  apply (get_table_info_stops_at_failure Scenario.broken_schema Demo.connected
           Scenario.demo_connection
           {| columns := ["name"];
              rows := [[CStr "items"]; [CStr "prices"]] |}
           [CStr "items"] [] (CStr "prices") Scenario.catalog_error);
    try reflexivity.
  intros k Hk. apply list_elem_of_singleton in Hk. rewrite Hk. reflexivity.
Defined.

Lemma demo_listing_answers (w : World) :
  w = Demo.two_matches ∨ w = Scenario.broken_schema →
  Steps.listing_answers w (db_manager Demo.uploaded) Demo.key_json
    (mkListResponse (Some [Demo.first_match; Demo.second_match])).
Proof.
  intros [->| ->]; (split; [reflexivity|]); exists Demo.key_text;
    by repeat split.
Defined.

Lemma demo_database_opens (w : World) :
  w = Demo.two_matches ∨ w = Scenario.broken_schema →
  database_opens w (db_manager Demo.uploaded) Demo.first_match ["DUCK"] "DB".
Proof.
  intros [->| ->]; (split; [reflexivity|]); (split; [reflexivity|]);
    (split; [|by repeat split]);
    intros [|[|j]] d Hd; simpl in Hd; try discriminate;
    by injection Hd as <-.
Defined.

Lemma initialize_connection_succeeds_witness :
  ∃ info s',
    DuckDBGDriveManager.initialize_connection Demo.two_matches 3 Demo.key_json
      Demo.uploaded = Some (Ok true, s')
    ∧ table_info (db_manager s') = Some info
    ∧ _connection (db_manager s') = Some Scenario.demo_connection
    ∧ new_events Demo.uploaded s'
      = connect_events (db_manager Demo.uploaded) Demo.key_json
          Demo.first_match 2
          ++ [EvDbExecute "SHOW TABLES"; EvDbExecute "DESCRIBE items";
              EvDbExecute "DESCRIBE prices"].
Proof.
  destruct (initialize_connection_succeeds Demo.two_matches 3 Demo.key_json
              Demo.uploaded
              (mkListResponse (Some [Demo.first_match; Demo.second_match]))
              Demo.first_match [Demo.second_match] ["DUCK"] "DB"
              [CStr "items"; CStr "prices"])
    as (info & s' & Hrun & Hmgr & _ & _ & Hev).
  - apply demo_listing_answers. by left.
  - reflexivity.
  - apply demo_database_opens. by left.
  - simpl. lia.
  - split.
    + eexists. split; reflexivity.
    + intros k Hk. apply elem_of_cons in Hk as [->|Hk]; [reflexivity|].
      apply list_elem_of_singleton in Hk. rewrite Hk. reflexivity.
  - exists info, s'. split; [exact Hrun|]. rewrite Hmgr.
    split; [reflexivity|]. split; [reflexivity|]. exact Hev.
Defined.

Lemma introspection_failure_leaves_connection_witness :
  ∃ s' e,
    DuckDBGDriveManager.initialize_connection Scenario.broken_schema 3
      Demo.key_json Demo.uploaded = Some (Ok false, s')
    ∧ last (trace s') = Some (EvPrint ("Connection error: " +:+ exn_str e))
    ∧ _connection (db_manager s') = Some Scenario.demo_connection
    ∧ connection_status (state s') = false.
Proof.
  destruct (introspection_failure_leaves_connection Scenario.broken_schema 3
              Demo.key_json Demo.uploaded
              (mkListResponse (Some [Demo.first_match; Demo.second_match]))
              Demo.first_match [Demo.second_match] ["DUCK"] "DB")
    as (s' & e & Hrun & Hlog & Hconn & _ & Hstate).
  - apply demo_listing_answers. by right.
  - reflexivity.
  - apply demo_database_opens. by right.
  - simpl. lia.
  - intros names [(tables & Hshow & Hcol) Hall].
    injection Hshow as <-. injection Hcol as <-.
    assert (Hbad : is_ok (db_execute Scenario.broken_schema
                            (Steps.the_connection (db_manager Demo.uploaded))
                            ("DESCRIBE " +:+ str_cell Scenario.broken_schema
                                               (CStr "prices"))) = true).
    { apply Hall. right. by left. }
    discriminate Hbad.
  - exists s', e. split; [exact Hrun|]. split; [exact Hlog|].
    split; [exact Hconn|]. by rewrite Hstate.
Defined.

Lemma manager_constants_are_kept_witness :
  manager_constants Demo.connected = manager_constants Demo.uploaded.
Proof.
  apply (proj1 (proj2 (proj2 (proj2
           (manager_constants_are_kept Demo.two_matches)))) 3%nat
           Demo.uploaded (Ok tt)).
  vm_compute. reflexivity.
Defined.

Lemma connection_status_is_never_reset_witness :
  connection_status
    (state (Demo.after (connect_database Demo.no_match 3) Demo.connected))
  = true.
Proof.
  apply (proj2 (proj2 (proj2 (proj2
           (connection_status_is_never_reset Demo.no_match)))) 3%nat
           Demo.connected (Ok tt)).
  - vm_compute. reflexivity.
  - reflexivity.
Defined.

Lemma cleanup_twice_witness :
  DuckDBGDriveManager.cleanup
    (Demo.after DuckDBGDriveManager.cleanup Demo.connected)
  = Some (Ok tt,
          logged [EvDbClose]
            (Demo.after DuckDBGDriveManager.cleanup Demo.connected)).
Proof.
  apply (cleanup_twice Demo.connected). vm_compute. reflexivity.
Defined.

Lemma query_after_cleanup_witness :
  ∃ s1,
    DuckDBGDriveManager.cleanup Demo.connected = Some (Ok tt, s1)
    ∧ state s1 = state Demo.connected
    ∧ DuckDBGDriveManager.execute_query Demo.two_matches "SELECT 1 AS x" s1
      = Some (Raise (wrapped (mkExn "ConnectionException"
                                "Connection Error: Connection already closed!")),
              logged [EvDbExecute "SELECT 1 AS x"] s1).
Proof.
  apply (query_after_cleanup Demo.two_matches Demo.connected
           Scenario.demo_connection "SELECT 1 AS x").
  reflexivity.
Defined.

Lemma init_builds_in_fresh_directory_witness :
  ∃ m s',
    DuckDBGDriveManager.__init__ Demo.two_matches Demo.boot = Some (Ok m, s')
    ∧ _temp_dir m = "/tmp/tmpq3x"
    ∧ under "/tmp/tmpq3x" (_db_path m) = true
    ∧ fs s' !! "/tmp/tmpq3x" = Some Dir.
Proof.
  destruct (proj1 (init_builds_in_fresh_directory Demo.two_matches Demo.boot)
              "/tmp/tmpq3x" eq_refl)
    as (m & s' & Hrun & Hdir & Hunder & _ & _ & Hdisk & _).
  exists m, s'. split; [exact Hrun|]. split; [exact Hdir|].
  split; [apply Hunder; discriminate|exact Hdisk].
Defined.

Lemma initialize_connection_writes_two_files_witness :
  fs (Demo.after
        (DuckDBGDriveManager.initialize_connection Demo.two_matches 3
           Demo.key_json) Demo.uploaded) !! "/tmp/tmpq3x"
  = fs Demo.uploaded !! "/tmp/tmpq3x".
Proof.
  apply (initialize_connection_writes_two_files Demo.two_matches
           "/tmp/tmpq3x" 3 Demo.key_json Demo.uploaded (Ok true)).
  - vm_compute. reflexivity.
  - discriminate.
  - discriminate.
Defined.

Lemma credentials_stay_on_disk_witness :
  fs (Demo.after
        (DuckDBGDriveManager.initialize_connection Demo.no_match 3
           Demo.key_json) Demo.uploaded) !! "/tmp/tmpq3x/creds.json"
  = Some (File Demo.key_text).
Proof.
  apply (credentials_stay_on_disk Demo.no_match 3 Demo.key_json Demo.key_text
           Demo.uploaded (Ok false)); reflexivity.
Defined.

Lemma page_stays_consistent_witness : page_consistent Demo.connected.
Proof.
  apply (proj1 (proj2 (page_stays_consistent Demo.two_matches)) 3%nat
           Demo.uploaded (Ok tt)).
  - vm_compute. reflexivity.
  - intros Hon. discriminate Hon.
Defined.
